(** * go-retryable: the retryable HTTP client of [pkg/retryable]

    A shallow embedding of [Client.Do] and of the helpers it calls
    ([prepareRequestBody], [resetRequestBody], [sendRequest],
    [prepareResponseBody], [applyRetryDelay], [parseRetryDelay]), followed by
    the properties of the retry loop, of the two body-capture routines and of
    the Retry-After interpreter.

    Conventions.
    - Go's [int], [int64] and [time.Duration] are 64-bit two's-complement
      integers (the Makefile builds for amd64); they are values of [Z] and
      every addition, multiplication and increment of the source is wrapped
      with [wrap64].
    - [float64] values are IEEE-754 binary64 numbers, [spec_float].
    - An [io.Reader] is the list of the outcomes of its future [Read] calls.
    - The collaborators outside the package (the base [http.Client], the
      [sleep] package, [time.Parse], [time.Until]) are oracles of an
      environment record; every call made to them is logged. *)

From Stdlib Require Import ZArith Lia Bool List Ascii String DecimalString.
From Stdlib.Strings Require Import Byte.
From Stdlib Require Import SpecFloat.
From stdpp Require Import base option list gmap strings.

Local Open Scope string_scope.
Local Open Scope Z_scope.

(** ** Machine integers *)

Definition max_int64 : Z := 9223372036854775807.
Definition min_int64 : Z := -9223372036854775808.

(** Two's-complement reduction of an integer to 64 bits. *)
Definition wrap64 (z : Z) : Z := (z + 2 ^ 63) mod 2 ^ 64 - 2 ^ 63.

(** [%d] of [fmt]. *)
Definition fmt_d (z : Z) : string := NilZero.string_of_int (Z.to_int z).

(** ** Errors *)

(** Errors made outside the package: the sentinels of [context] and [io],
    any other leaf error, and wrappers with an [Unwrap] method (for instance
    the [*url.Error] the base client returns). None of them wraps a sentinel
    of this package. *)
Inductive cause : Type :=
| context_Canceled
| context_DeadlineExceeded
| io_EOF
| io_ErrUnexpectedEOF
| errors_New (msg : string)
| wrapped (prefix : string) (inner : cause).

Inductive target : Type := Canceled | DeadlineExceeded.

(** [errors.Is(c, context.Canceled)] and [errors.Is(c, context.DeadlineExceeded)]. *)
Fixpoint cause_Is (c : cause) (t : target) : bool :=
  match c, t with
  | context_Canceled, Canceled => true
  | context_DeadlineExceeded, DeadlineExceeded => true
  | wrapped _ inner, _ => cause_Is inner t
  | _, _ => false
  end.

Fixpoint cause_Error (c : cause) : string :=
  match c with
  | context_Canceled => "context canceled"
  | context_DeadlineExceeded => "context deadline exceeded"
  | io_EOF => "EOF"
  | io_ErrUnexpectedEOF => "unexpected EOF"
  | errors_New msg => msg
  | wrapped prefix inner => prefix +:+ ": " +:+ cause_Error inner
  end.

(** The two sentinels of the package. *)
Inductive sentinel : Type := ErrRetryable | ErrNonRetryable.

Definition sentinel_Error (s : sentinel) : string :=
  match s with
  | ErrRetryable => "retryable error"
  | ErrNonRetryable => "non-retryable error"
  end.

(** The errors the package builds: [fmt.Errorf("%w: <text>", s)],
    [fmt.Errorf("%w: <text>: %w", s, c)] and [fmt.Errorf("%w: %w", s, c)]
    (the last one has an empty [err_text]). *)
Record error : Type := Errorf {
  err_wraps : sentinel;
  err_text : string;
  err_cause : option cause
}.

Definition error_Error (e : error) : string :=
  sentinel_Error (err_wraps e)
  +:+ (if String.eqb (err_text e) EmptyString then EmptyString else ": " +:+ err_text e)
  +:+ match err_cause e with
     | Some c => ": " +:+ cause_Error c
     | None => EmptyString
     end.

(** [errors.Is(err, ErrRetryable)] on a possibly nil error. *)
Definition is_sentinel (s1 s2 : sentinel) : bool :=
  match s1, s2 with
  | ErrRetryable, ErrRetryable | ErrNonRetryable, ErrNonRetryable => true
  | _, _ => false
  end.

Definition errors_Is (err : option error) (s : sentinel) : bool :=
  match err with
  | Some e => is_sentinel (err_wraps e) s
  | None => false
  end.

(** [errors.Is] on a possibly nil error of a collaborator. *)
Definition errors_Is_ctx (err : option cause) (t : target) : bool :=
  match err with
  | Some c => cause_Is c t
  | None => false
  end.

(** The three outcomes of the retry decision. *)
Inductive RetryDecision : Type := Success | RetryableFailure | FatalFailure.

(** How the loop of [Do] reads an error (lines 343 and 348 of the source). *)
Definition classify (err : option error) : RetryDecision :=
  match err with
  | None => Success
  | Some _ => if errors_Is err ErrRetryable then RetryableFailure else FatalFailure
  end.

(** ** Readers *)

(** One outcome of a [Read] call: a byte delivered with a nil error, a
    failure, or end of file. A reader reports an error or the end of file by
    a call that delivers no byte. *)
Inductive event : Type :=
| Data (b : byte)
| Failure (e : cause)
| Eof.

(** The future of a reader; once the list is exhausted every [Read] returns
    [io.EOF]. *)
Definition stream : Type := list event.

(** An [io.ReadCloser]: what is left to read and how many times [Close] was
    called on it. *)
Record ReadCloser : Type := mkReadCloser {
  pending : stream;
  closes : nat
}.

Definition Close (body : ReadCloser) : ReadCloser :=
  {| pending := pending body; closes := S (closes body) |}.

(** [io.NopCloser(bytes.NewReader(buffer))]. *)
Definition NopCloser_NewReader (buffer : list byte) : ReadCloser :=
  {| pending := map Data buffer; closes := 0 |}.

(** [io.ReadAll(r)]: the bytes up to the first call that reports something,
    a nil error if that is [io.EOF], and what is left of the reader. *)
Fixpoint io_ReadAll (s : stream) : list byte * option cause * stream :=
  match s with
  | [] => ([], None, [])
  | Data b :: s' => let '(bs, err, rest) := io_ReadAll s' in (b :: bs, err, rest)
  | Failure e :: s' => ([], Some e, s')
  | Eof :: s' => ([], None, s')
  end.

(** [io.ReadAll(io.LimitReader(r, n))]: the limited reader answers [io.EOF]
    without touching [r] once [n] bytes went through. *)
Fixpoint io_ReadAll_LimitReader (n : Z) (s : stream) : list byte * option cause * stream :=
  if n <=? 0 then ([], None, s)
  else match s with
       | [] => ([], None, [])
       | Data b :: s' =>
           let '(bs, err, rest) := io_ReadAll_LimitReader (n - 1) s' in (b :: bs, err, rest)
       | Failure e :: s' => ([], Some e, s')
       | Eof :: s' => ([], None, s')
       end.

(** Lines 394-400 and 500-506: [io.ReadAll] of the stream, through
    [io.LimitReader] when the ceiling is positive. *)
Definition read_limited (ceiling : Z) (s : stream) : list byte * option cause * stream :=
  if 0 <? ceiling then io_ReadAll_LimitReader ceiling s else io_ReadAll s.

(** [io.Copy(io.Discard, r)]: the number of bytes discarded (an [int64]
    counter), a nil error if the copy stopped on [io.EOF], and what is left. *)
Fixpoint io_Copy_Discard (s : stream) : Z * option cause * stream :=
  match s with
  | [] => (0, None, [])
  | Data _ :: s' => let '(n, err, rest) := io_Copy_Discard s' in (wrap64 (n + 1), err, rest)
  | Failure e :: s' => (0, Some e, s')
  | Eof :: s' => (0, None, s')
  end.

(** ** Requests, responses and the client *)

(** A [context.Context] as the client builds it: the caller's context (or
    [context.Background()]) under at most two [context.WithTimeout]. *)
Inductive Context : Type :=
| Background
| CallerContext (name : string)
| WithTimeout (parent : Context) (timeout : Z).

(** [http.Response]; [None] is the nil map and the nil body. *)
Record Response : Type := mkResponse {
  StatusCode : Z;
  Header : option (gmap string (list string));
  Body : option ReadCloser;
  ContentLength : Z
}.

(** [http.Request]. [GetBody] takes the number of earlier invocations, so
    that a caller's stateful closure fits. [ctx] is [None] when the request
    has no context ([Request.Context] then returns the background). *)
Record Request : Type := mkRequest {
  ReqBody : option ReadCloser;
  GetBody : option (nat -> option ReadCloser * option cause);
  ReqContentLength : Z;
  ctx : option Context
}.

Record Client : Type := mkClient {
  RetryStatus : list Z;
  RetryCount : Z;
  RetryDelay : Z;
  RetryMultiplier : spec_float;
  RetryJitter : spec_float;
  RetryTimeout : Z;
  RequestDelay : Z;
  RequestJitter : spec_float;
  RequestTimeout : Z;
  RequestSize : Z;
  ResponseSize : Z
}.

Definition http_StatusBadRequest : Z := 400.

(** The loop of lines 525-529: is the status one of [RetryStatus]? *)
Fixpoint retryable_status (statuses : list Z) (code : Z) : bool :=
  match statuses with
  | [] => false
  | status :: rest => if status =? code then true else retryable_status rest code
  end.

(** ** prepareResponseBody *)

(** The deferred closure of lines 512-516. *)
Definition replace_response_body (response : Response) (buffer : list byte) : Response :=
  {| StatusCode := StatusCode response;
     Header := Header response;
     Body := Some (NopCloser_NewReader buffer);
     ContentLength := Z.of_nat (length buffer) |}.

(** What [prepareResponseBody] leaves behind: the response, the stream that
    was [response.Body] at the call, and the error. *)
Record prepared_response : Type := mkPrepared {
  resp_after : Response;
  original_after : ReadCloser;
  resp_err : option error
}.

(** [prepareResponseBody(response)], lines 493-542. [body] is
    [response.Body], which is not nil at the only call site (line 479
    returns before). The closure deferred on line 495 closes [body] on every
    path; the one deferred on line 512 replaces the body on the paths that
    pass line 510. On the path that returns on line 508 the response keeps
    the original stream, which is the one that was closed. *)
Definition prepareResponseBody (client : Client) (response : Response) (body : ReadCloser)
  : prepared_response :=
  let '(buffer, err, rest) := read_limited (ResponseSize client) (pending body) in
  match err with
  | Some e =>
      let original := Close {| pending := rest; closes := closes body |} in
      {| resp_after := {| StatusCode := StatusCode response;
                          Header := Header response;
                          Body := Some original;
                          ContentLength := ContentLength response |};
         original_after := original;
         resp_err := Some (Errorf ErrRetryable "unable to read response body" (Some e)) |}
  | None =>
      let '(size, err, rest) := io_Copy_Discard rest in
      let original := Close {| pending := rest; closes := closes body |} in
      let done (result : option error) :=
        {| resp_after := replace_response_body response buffer;
           original_after := original;
           resp_err := result |} in
      match err with
      | Some e => done (Some (Errorf ErrRetryable "unable to discard response body" (Some e)))
      | None =>
          if retryable_status (RetryStatus client) (StatusCode response)
          then done (Some (Errorf ErrRetryable
                             ("invalid status code (" +:+ fmt_d (StatusCode response) +:+ ")") None))
          else if http_StatusBadRequest <=? StatusCode response
          then done (Some (Errorf ErrNonRetryable
                             ("invalid status code (" +:+ fmt_d (StatusCode response) +:+ ")") None))
          else
            let size := wrap64 (size + ResponseSize client) in
            if (0 <? ResponseSize client) && (ResponseSize client <? size)
            then done (Some (Errorf ErrNonRetryable
                               ("response size exceeded (" +:+ fmt_d size +:+ ")") None))
            else done None
      end
  end.

(** ** prepareRequestBody *)

(** What [prepareRequestBody] leaves behind: the request (nil stays nil),
    the stream that was [request.Body] at the call when the routine touched
    it, and the error. *)
Record prepared_request : Type := mkPreparedRequest {
  req_after : option Request;
  req_original_after : option ReadCloser;
  req_err : option error
}.

(** The body of the deferred closure of lines 406-413, apart from the
    [Close] of the original stream. *)
Definition replace_request_body (request : Request) (buffer : list byte) : Request :=
  {| ReqBody := Some (NopCloser_NewReader buffer);
     GetBody := Some (fun _ => (Some (NopCloser_NewReader buffer), None));
     ReqContentLength := Z.of_nat (length buffer);
     ctx := ctx request |}.

(** [prepareRequestBody(request)], lines 382-427. *)
Definition prepareRequestBody (client : Client) (request : option Request) : prepared_request :=
  match request with
  | None =>
      {| req_after := None; req_original_after := None;
         req_err := Some (Errorf ErrNonRetryable "invalid request" None) |}
  | Some req =>
      match ReqBody req, GetBody req with
      | None, _ | Some _, Some _ =>
          {| req_after := Some req; req_original_after := None; req_err := None |}
      | Some body, None =>
          let '(buffer, err, rest) := read_limited (RequestSize client) (pending body) in
          match err with
          | Some e =>
              let original := {| pending := rest; closes := closes body |} in
              {| req_after := Some {| ReqBody := Some original;
                                      GetBody := None;
                                      ReqContentLength := ReqContentLength req;
                                      ctx := ctx req |};
                 req_original_after := Some original;
                 req_err := Some (Errorf ErrNonRetryable "unable to read request body" (Some e)) |}
          | None =>
              let '(size, err, rest) := io_Copy_Discard rest in
              let original := Close {| pending := rest; closes := closes body |} in
              let done (result : option error) :=
                {| req_after := Some (replace_request_body req buffer);
                   req_original_after := Some original;
                   req_err := result |} in
              match err with
              | Some e =>
                  done (Some (Errorf ErrNonRetryable "unable to discard request body" (Some e)))
              | None =>
                  let size := wrap64 (size + RequestSize client) in
                  if (0 <? RequestSize client) && (RequestSize client <? size)
                  then done (Some (Errorf ErrNonRetryable
                                     ("request size exceeded (" +:+ fmt_d size +:+ ")") None))
                  else done None
              end
          end
      end
  end.

(** ** The collaborators *)

(** The two entry points of the [sleep] package the client calls. *)
Inductive SleepCall : Type :=
| RandomJitterWithContext (c : Context) (duration : Z) (jitter : spec_float)
| ExponentialBackoffWithContext
    (c : Context) (delay : Z) (multiplier jitter : spec_float) (attempt : Z).

(** What the world outside the package answers. [sleep_result n call] is the
    error of the [n]-th call of the [sleep] package (nil when the sleep ran
    to its end), [transport n request] what the base client returns for the
    [n]-th exchange; [time_Parse_RFC1123] is [time.Parse(time.RFC1123, _)]
    with instants counted in nanoseconds, and [time_Now] the instant
    [time.Until] reads. [context_Err n c] is what [c.Err()] would report
    when the [n]-th exchange returns ([None] while [c] is alive); the client
    never calls it, it is there for the statements about cancellation. *)
Record Env : Type := mkEnv {
  sleep_result : nat -> SleepCall -> option cause;
  transport : nat -> Request -> option Response * option cause;
  time_Parse_RFC1123 : string -> option Z;
  time_Now : Z;
  context_Err : nat -> Context -> option target
}.

(** The calls made so far, oldest first. *)
Record World : Type := mkWorld {
  sleeps : list SleepCall;
  sends : list Request;
  regenerations : nat
}.

Definition new_world : World := {| sleeps := []; sends := []; regenerations := 0 |}.

Definition do_sleep (env : Env) (call : SleepCall) (w : World) : option cause * World :=
  (sleep_result env (length (sleeps w)) call,
   {| sleeps := sleeps w ++ [call]; sends := sends w; regenerations := regenerations w |}).

Definition do_send (env : Env) (request : Request) (w : World)
  : option Response * option cause * World :=
  (transport env (length (sends w)) request,
   {| sleeps := sleeps w; sends := sends w ++ [request]; regenerations := regenerations w |}).

(** [time.Until(date)]: [Time.Sub] saturates at the largest and the smallest
    [Duration]. *)
Definition time_Until (env : Env) (date : Z) : Z :=
  Z.max min_int64 (Z.min max_int64 (date - time_Now env)).

Definition time_Second : Z := 1000000000.

(** ** strconv.ParseInt(s, 10, 64) *)

Definition digit_value (a : ascii) : option Z :=
  let n := Z.of_N (N_of_ascii a) in
  if (48 <=? n) && (n <=? 57) then Some (n - 48) else None.

Fixpoint parse_digits (s : string) (acc : Z) : option Z :=
  match s with
  | EmptyString => Some acc
  | String a s' =>
      match digit_value a with
      | Some d => parse_digits s' (acc * 10 + d)
      | None => None
      end
  end.

(** The digits of [strconv.ParseUint] in base 10: at least one, no
    underscore; the magnitude is checked against the range by the caller. *)
Definition parse_magnitude (s : string) : option Z :=
  match s with
  | EmptyString => None
  | _ => parse_digits s 0
  end.

(** [None] stands for a non-nil error ([ErrSyntax] or [ErrRange]). *)
Definition strconv_ParseInt (s : string) : option Z :=
  match s with
  | EmptyString => None
  | String a s' =>
      let '(neg, digits) :=
        if Ascii.eqb a "+" then (false, s')
        else if Ascii.eqb a "-" then (true, s')
        else (false, s) in
      match parse_magnitude digits with
      | None => None
      | Some un =>
          if neg
          then if un <=? 2 ^ 63 then Some (- un) else None
          else if un <? 2 ^ 63 then Some un else None
      end
  end.

(** ** parseRetryDelay *)

(** [Header.Get(key)] for a key in canonical form. *)
Definition Header_Get (h : gmap string (list string)) (key : string) : string :=
  match h !! key with
  | Some (v :: _) => v
  | _ => EmptyString
  end.

(** [parseRetryDelay(response)], lines 574-598. *)
Definition parseRetryDelay (env : Env) (response : option Response) : Z :=
  match response with
  | None => 0
  | Some r =>
      match Header r with
      | None => 0
      | Some h =>
          let header := Header_Get h "Retry-After" in
          if String.eqb header EmptyString then 0
          else match strconv_ParseInt header with
               | Some duration => wrap64 (duration * time_Second)
               | None =>
                   match time_Parse_RFC1123 env header with
                   | Some date => time_Until env date
                   | None => 0
                   end
               end
      end
  end.

(** ** applyRequestDelay and applyRetryDelay *)

Definition float_zero : spec_float := S754_zero false.
Definition float_one : spec_float := S754_finite false 4503599627370496 (-52).

Definition is_pos_inf (x : spec_float) : bool :=
  match x with S754_infinity false => true | _ => false end.

Definition is_nan (x : spec_float) : bool :=
  match x with S754_nan => true | _ => false end.

Definition Signbit (x : spec_float) : bool :=
  match x with
  | S754_zero s | S754_infinity s | S754_finite s _ _ => s
  | S754_nan => false
  end.

(** [math.Max(x, y)]. *)
Definition math_Max (x y : spec_float) : spec_float :=
  if is_pos_inf x || is_pos_inf y then S754_infinity false
  else if is_nan x || is_nan y then S754_nan
  else if SFeqb x float_zero && SFeqb x y then (if Signbit x then y else x)
  else if SFltb y x then x
  else y.

Definition wrap_sleep_error (r : option cause) : option error :=
  match r with
  | Some e => Some (Errorf ErrNonRetryable EmptyString (Some e))
  | None => None
  end.

(** [applyRequestDelay(ctx)], lines 431-438. *)
Definition applyRequestDelay (env : Env) (client : Client) (c : Context) (w : World)
  : option error * World :=
  let '(r, w) :=
    do_sleep env (RandomJitterWithContext c (RequestDelay client) (RequestJitter client)) w in
  (wrap_sleep_error r, w).

(** [applyRetryDelay(ctx, response, attempt)], lines 548-569. *)
Definition applyRetryDelay (env : Env) (client : Client) (c : Context)
    (response : option Response) (attempt : Z) (w : World) : option error * World :=
  let delay := parseRetryDelay env response in
  if 0 <? delay
  then
    let '(r, w) := do_sleep env (RandomJitterWithContext c delay float_zero) w in
    (wrap_sleep_error r, w)
  else
    let multiplier := math_Max (RetryMultiplier client) float_one in
    let '(r, w) :=
      do_sleep env
        (ExponentialBackoffWithContext c (RetryDelay client) multiplier
           (RetryJitter client) attempt) w in
    (wrap_sleep_error r, w).

(** ** resetRequestBody *)

(** [resetRequestBody(request)], lines 441-453, on a request that is not
    nil: [request.Body] takes whatever [GetBody] returned, also with an
    error. *)
Definition resetRequestBody (request : Request) (w : World)
  : Request * option error * World :=
  match GetBody request with
  | None => (request, None, w)
  | Some get =>
      let '(body, err) := get (regenerations w) in
      let request' := {| ReqBody := body; GetBody := GetBody request;
                         ReqContentLength := ReqContentLength request;
                         ctx := ctx request |} in
      let w' := {| sleeps := sleeps w; sends := sends w;
                   regenerations := S (regenerations w) |} in
      match err with
      | Some e => (request', Some (Errorf ErrNonRetryable "unable to reset request body" (Some e)), w')
      | None => (request', None, w')
      end
  end.

(** ** sendRequest *)

(** [request.WithContext(ctx)]. *)
Definition WithContext (request : Request) (c : Context) : Request :=
  {| ReqBody := ReqBody request; GetBody := GetBody request;
     ReqContentLength := ReqContentLength request; ctx := Some c |}.

(** The context [sendRequest] hands to the base client (lines 459-463). *)
Definition attempt_context (client : Client) (c : Context) : Context :=
  if 0 <? RequestTimeout client then WithTimeout c (RequestTimeout client) else c.

(** [sendRequest(ctx, request)], lines 457-489. *)
Definition sendRequest (env : Env) (client : Client) (c : Context) (request : Request)
    (w : World) : option Response * option error * World :=
  let '(response, err, w) := do_send env (WithContext request (attempt_context client c)) w in
  if errors_Is_ctx err Canceled || errors_Is_ctx err DeadlineExceeded
  then (response, Some (Errorf ErrNonRetryable EmptyString err), w)
  else
    match err with
    | Some e => (response, Some (Errorf ErrRetryable "unable to send request" (Some e)), w)
    | None =>
        match response with
        | None => (response, Some (Errorf ErrRetryable "invalid response" None), w)
        | Some r =>
            match Body r with
            | None => (response, Some (Errorf ErrRetryable "invalid response" None), w)
            | Some body =>
                let p := prepareResponseBody client r body in
                (Some (resp_after p), resp_err p, w)
            end
        end
    end.

(** ** Do *)

(** [request.Context()]. *)
Definition Request_Context (request : Request) : Context :=
  match ctx request with
  | Some c => c
  | None => Background
  end.

Record DoResult : Type := mkDoResult {
  do_response : option Response;
  do_err : option error;
  do_request : option Request;
  do_world : World
}.

(** The loop of lines 328-359, from the test of [attempt <= client.RetryCount]
    on. [fuel] bounds the number of tests of the loop condition; [None] means
    that the loop is still running when the fuel is spent. [response] and
    [err] are the named results of [Do]. *)
Fixpoint retry_loop (fuel : nat) (env : Env) (client : Client) (c : Context)
    (request : Request) (attempt : Z) (response : option Response) (err : option error)
    (w : World) : option DoResult :=
  match fuel with
  | O => None
  | S fuel' =>
      if attempt <=? RetryCount client then
        let '(err, w) := applyRequestDelay env client c w in
        match err with
        | Some _ => Some (mkDoResult response err (Some request) w)
        | None =>
            let '(request, err, w) := resetRequestBody request w in
            match err with
            | Some _ => Some (mkDoResult response err (Some request) w)
            | None =>
                let '(response, err, w) := sendRequest env client c request w in
                match err with
                | None => Some (mkDoResult response None (Some request) w)
                | Some _ =>
                    if negb (errors_Is err ErrRetryable)
                    then Some (mkDoResult response err (Some request) w)
                    else if attempt <? RetryCount client then
                      let '(err, w) := applyRetryDelay env client c response attempt w in
                      match err with
                      | Some _ => Some (mkDoResult response err (Some request) w)
                      | None =>
                          retry_loop fuel' env client c request (wrap64 (attempt + 1))
                            response err w
                      end
                    else
                      retry_loop fuel' env client c request (wrap64 (attempt + 1))
                        response err w
                end
            end
        end
      else Some (mkDoResult response err (Some request) w)
  end.

(** [Do(request)], lines 309-361. The deferred [panicHandler] has nothing to
    recover: no step of the embedding faults. *)
Definition Do (fuel : nat) (env : Env) (client : Client) (request : option Request)
  : option DoResult :=
  let p := prepareRequestBody client request in
  match req_err p with
  | Some e => Some (mkDoResult None (Some e) (req_after p) new_world)
  | None =>
      match req_after p with
      | None => Some (mkDoResult None (req_err p) None new_world)
      | Some req =>
          let c := Request_Context req in
          let c := if 0 <? RetryTimeout client then WithTimeout c (RetryTimeout client) else c in
          retry_loop fuel env client c req 0 None None new_world
      end
  end.

(** The fuel that is enough when the attempt counter cannot wrap around. *)
Definition enough_fuel (client : Client) : nat := Z.to_nat (RetryCount client + 1) + 1.


(** ** What a capture observes *)

(** The bytes [io.ReadAll] hands back under the ceiling, and its error. *)
Definition captured (ceiling : Z) (s : stream) : list byte := (read_limited ceiling s).1.1.
Definition capture_error (ceiling : Z) (s : stream) : option cause := (read_limited ceiling s).1.2.

(** The count and the error of the [io.Copy] into [io.Discard] that follows
    the capture. *)
Definition drained (ceiling : Z) (s : stream) : Z :=
  (io_Copy_Discard (read_limited ceiling s).2).1.1.
Definition drain_error (ceiling : Z) (s : stream) : option cause :=
  (io_Copy_Discard (read_limited ceiling s).2).1.2.

(** The test of lines 537-538 (and 422-423): the drained count plus the
    ceiling, compared with the ceiling. *)
Definition size_check (ceiling : Z) (s : stream) : bool :=
  (0 <? ceiling) && (ceiling <? wrap64 (drained ceiling s + ceiling)).



(** Every response over the ceiling is fatal, whatever its status and
    whatever happens while the rest of the body is drained. *)
Definition oversize_always_fatal : Prop :=
  forall client response body,
    0 < ResponseSize client ->
    ResponseSize client
    < Z.of_nat (length (captured (ResponseSize client) (pending body)))
      + drained (ResponseSize client) (pending body) ->
    classify (resp_err (prepareResponseBody client response body)) = FatalFailure.

(** The body is an in-memory reader over the captured bytes after every
    return, and the original stream was closed once. *)
Definition body_always_replaced : Prop :=
  forall client response body,
    let p := prepareResponseBody client response body in
    Body (resp_after p)
    = Some (NopCloser_NewReader (captured (ResponseSize client) (pending body)))
    /\ closes (original_after p) = S (closes body).

(** ** Sample data *)

(** [new(Client)]. *)
Definition zero_client : Client :=
  {| RetryStatus := []; RetryCount := 0; RetryDelay := 0;
     RetryMultiplier := float_zero; RetryJitter := float_zero;
     RetryTimeout := 0; RequestDelay := 0; RequestJitter := float_zero;
     RequestTimeout := 0; RequestSize := 0; ResponseSize := 0 |}.

Definition with_ResponseSize (client : Client) (n : Z) : Client :=
  {| RetryStatus := RetryStatus client; RetryCount := RetryCount client;
     RetryDelay := RetryDelay client; RetryMultiplier := RetryMultiplier client;
     RetryJitter := RetryJitter client; RetryTimeout := RetryTimeout client;
     RequestDelay := RequestDelay client; RequestJitter := RequestJitter client;
     RequestTimeout := RequestTimeout client; RequestSize := RequestSize client;
     ResponseSize := n |}.

Definition with_RequestSize (client : Client) (n : Z) : Client :=
  {| RetryStatus := RetryStatus client; RetryCount := RetryCount client;
     RetryDelay := RetryDelay client; RetryMultiplier := RetryMultiplier client;
     RetryJitter := RetryJitter client; RetryTimeout := RetryTimeout client;
     RequestDelay := RequestDelay client; RequestJitter := RequestJitter client;
     RequestTimeout := RequestTimeout client; RequestSize := n;
     ResponseSize := ResponseSize client |}.

Definition with_RetryStatus (client : Client) (l : list Z) : Client :=
  {| RetryStatus := l; RetryCount := RetryCount client;
     RetryDelay := RetryDelay client; RetryMultiplier := RetryMultiplier client;
     RetryJitter := RetryJitter client; RetryTimeout := RetryTimeout client;
     RequestDelay := RequestDelay client; RequestJitter := RequestJitter client;
     RequestTimeout := RequestTimeout client; RequestSize := RequestSize client;
     ResponseSize := ResponseSize client |}.

Definition with_RetryCount (client : Client) (n : Z) : Client :=
  {| RetryStatus := RetryStatus client; RetryCount := n;
     RetryDelay := RetryDelay client; RetryMultiplier := RetryMultiplier client;
     RetryJitter := RetryJitter client; RetryTimeout := RetryTimeout client;
     RequestDelay := RequestDelay client; RequestJitter := RequestJitter client;
     RequestTimeout := RequestTimeout client; RequestSize := RequestSize client;
     ResponseSize := ResponseSize client |}.

Definition with_RequestTimeout (client : Client) (n : Z) : Client :=
  {| RetryStatus := RetryStatus client; RetryCount := RetryCount client;
     RetryDelay := RetryDelay client; RetryMultiplier := RetryMultiplier client;
     RetryJitter := RetryJitter client; RetryTimeout := RetryTimeout client;
     RequestDelay := RequestDelay client; RequestJitter := RequestJitter client;
     RequestTimeout := n; RequestSize := RequestSize client;
     ResponseSize := ResponseSize client |}.

(** The body ["xyz"] of the tests. *)
Definition xyz : list byte := ["x"; "y"; "z"]%byte.

(** The [MockReader] of the tests in its first state: the first [Read]
    fails with [io.ErrUnexpectedEOF], the second one returns [io.EOF]. *)
Definition MockReader : ReadCloser :=
  {| pending := [Failure io_ErrUnexpectedEOF; Eof; Failure io_ErrUnexpectedEOF; Eof]; closes := 0 |}.

(** A response with the given status and no header. *)
Definition response_with_status (code : Z) : Response :=
  {| StatusCode := code; Header := None; Body := None; ContentLength := 0 |}.



(** A request whose body is a plain stream, without [GetBody]. *)
Definition request_with_stream (body : ReadCloser) : Request :=
  {| ReqBody := Some body; GetBody := None; ReqContentLength := 0; ctx := None |}.

(** [new(http.Request)]. *)
Definition empty_request : Request :=
  {| ReqBody := None; GetBody := None; ReqContentLength := 0; ctx := None |}.


(** An environment in which every sleep runs to its end, no exchange gets
    through and no header is a date. *)
Definition quiet_env : Env :=
  {| sleep_result := fun _ _ => None;
     transport := fun _ _ => (None, Some (errors_New "no route to host"));
     time_Parse_RFC1123 := fun _ => None;
     time_Now := 0;
     context_Err := fun _ _ => None |}.

(** A response with the given status and Retry-After header. *)
Definition response_with_retry_after (code : Z) (value : string) : Response :=
  {| StatusCode := code;
     Header := Some {[ "Retry-After" := [value] ]};
     Body := None;
     ContentLength := 0 |}.

(** The send error [e] of the [n]-th exchange is caused by the end of the
    context [c]: [c] is done, and [e] is the error it is done with. *)
Definition caused_by_end_of (env : Env) (n : nat) (c : Context) (e : cause) : Prop :=
  exists t, context_Err env n c = Some t /\ cause_Is e t = true.

(** The classification of send errors as documented: fatal when the outer
    context ended, retryable for every other send error and for a nil or
    bodiless response. *)
Definition send_errors_as_documented : Prop :=
  forall env client c request w,
    let n := length (sends w) in
    let exchange := transport env n (WithContext request (attempt_context client c)) in
    let err := (sendRequest env client c request w).1.2 in
    (forall e, exchange.2 = Some e -> caused_by_end_of env n c e ->
       classify err = FatalFailure)
    /\ (forall e, exchange.2 = Some e -> ~ caused_by_end_of env n c e ->
          classify err = RetryableFailure)
    /\ (exchange.2 = None ->
        (exchange.1 = None \/ exists r, exchange.1 = Some r /\ Body r = None) ->
        classify err = RetryableFailure).

(** The exchange of the tests with [RequestTimeout = 1]: the context of the
    attempt expires, the outer context is alive, and the base client returns
    the deadline error in a [*url.Error]. *)
Definition attempt_timeout_env : Env :=
  {| sleep_result := fun _ _ => None;
     transport := fun _ _ =>
       (None, Some (wrapped "Get https://www.github.com/" context_DeadlineExceeded));
     time_Parse_RFC1123 := fun _ => None;
     time_Now := 0;
     context_Err := fun _ c =>
       match c with
       | WithTimeout _ _ => Some DeadlineExceeded
       | _ => None
       end |}.

(** One call of [Do] returns after at most [RetryCount + 1] exchanges, for
    every client. *)
Definition sends_bounded_for_every_client : Prop :=
  forall env client request,
    exists fuel result,
      Do fuel env client request = Some result
      /\ Z.of_nat (length (sends (do_world result))) <= RetryCount client + 1.

(** An endpoint that answers every request with the status 200 and the body
    ["xyz"]; every sleep runs to its end. *)
Definition always_200_env : Env :=
  {| sleep_result := fun _ _ => None;
     transport := fun _ _ =>
       (Some {| StatusCode := 200; Header := None;
                Body := Some (NopCloser_NewReader xyz); ContentLength := 3 |}, None);
     time_Parse_RFC1123 := fun _ => None;
     time_Now := 0;
     context_Err := fun _ _ => None |}.

(** ** The course of one call of Do *)

(** The context of the whole call (lines 320-325): the context of the
    request, under the retry timeout when there is one. *)
Definition retry_context (client : Client) (request : Request) : Context :=
  if 0 <? RetryTimeout client
  then WithTimeout (Request_Context request) (RetryTimeout client)
  else Request_Context request.

(** The context a sleep was asked to watch. *)
Definition sleep_context (call : SleepCall) : Context :=
  match call with
  | RandomJitterWithContext c _ _ => c
  | ExponentialBackoffWithContext c _ _ _ _ => c
  end.

(** What [sendRequest] makes of the answer of the base client (lines
    468-488): the error it returns. *)
Definition exchange_error (client : Client) (exchange : option Response * option cause)
  : option error :=
  if errors_Is_ctx exchange.2 Canceled || errors_Is_ctx exchange.2 DeadlineExceeded
  then Some (Errorf ErrNonRetryable EmptyString exchange.2)
  else match exchange.2 with
       | Some e => Some (Errorf ErrRetryable "unable to send request" (Some e))
       | None =>
           match exchange.1 with
           | None => Some (Errorf ErrRetryable "invalid response" None)
           | Some r =>
               match Body r with
               | None => Some (Errorf ErrRetryable "invalid response" None)
               | Some body => resp_err (prepareResponseBody client r body)
               end
           end
       end.

(** The bytes a stream delivers before its first error or end of file. *)
Definition leading_bytes (s : stream) : list byte := (io_ReadAll s).1.1.

(** An environment whose context is cancelled from the start: every sleep
    returns [context.Canceled]. *)
Definition cancelled_env : Env :=
  {| sleep_result := fun _ _ => Some context_Canceled;
     transport := fun _ _ => (None, Some (errors_New "no route to host"));
     time_Parse_RFC1123 := fun _ => None;
     time_Now := 0;
     context_Err := fun _ _ => Some Canceled |}.

(** The request of the tests whose [GetBody] fails with [io.EOF]. *)
Definition request_with_failing_GetBody : Request :=
  {| ReqBody := None; GetBody := Some (fun _ => (None, Some io_EOF));
     ReqContentLength := 0; ctx := None |}.

(** The log after one more call of the [sleep] package. *)
Definition log_sleep (call : SleepCall) (w : World) : World :=
  {| sleeps := sleeps w ++ [call]; sends := sends w; regenerations := regenerations w |}.

(** The sleep of [applyRequestDelay] (line 433). *)
Definition request_delay_call (client : Client) (c : Context) : SleepCall :=
  RandomJitterWithContext c (RequestDelay client) (RequestJitter client).

(** The sleep of [applyRetryDelay] (lines 550-564). *)
Definition retry_delay_call (env : Env) (client : Client) (c : Context)
    (response : option Response) (attempt : Z) : SleepCall :=
  if 0 <? parseRetryDelay env response
  then RandomJitterWithContext c (parseRetryDelay env response) float_zero
  else ExponentialBackoffWithContext c (RetryDelay client)
         (math_Max (RetryMultiplier client) float_one) (RetryJitter client) attempt.

(** One turn of the loop of [Do] (lines 328-359), as a relation: the ways
    in which the turn that starts with the given attempt index, named results
    and log returns from [Do]. *)
Inductive turn_ends (env : Env) (client : Client) (c : Context) (request : Request)
    (attempt : Z) (response : option Response) (err : option error) (w : World)
  : DoResult -> Prop :=
| turn_exit :
    RetryCount client < attempt ->
    turn_ends env client c request attempt response err w
      (mkDoResult response err (Some request) w)
| turn_request_delay_interrupted e :
    attempt <= RetryCount client ->
    sleep_result env (length (sleeps w)) (request_delay_call client c) = Some e ->
    turn_ends env client c request attempt response err w
      (mkDoResult response (Some (Errorf ErrNonRetryable EmptyString (Some e)))
         (Some request) (log_sleep (request_delay_call client c) w))
| turn_reset_failed request2 e2 w2 :
    attempt <= RetryCount client ->
    sleep_result env (length (sleeps w)) (request_delay_call client c) = None ->
    resetRequestBody request (log_sleep (request_delay_call client c) w)
    = (request2, Some e2, w2) ->
    turn_ends env client c request attempt response err w
      (mkDoResult response (Some e2) (Some request2) w2)
| turn_sent request2 w2 response3 err3 w3 :
    attempt <= RetryCount client ->
    sleep_result env (length (sleeps w)) (request_delay_call client c) = None ->
    resetRequestBody request (log_sleep (request_delay_call client c) w)
    = (request2, None, w2) ->
    sendRequest env client c request2 w2 = (response3, err3, w3) ->
    errors_Is err3 ErrRetryable = false ->
    turn_ends env client c request attempt response err w
      (mkDoResult response3 err3 (Some request2) w3)
| turn_retry_delay_interrupted request2 w2 response3 e3 w3 e4 :
    attempt < RetryCount client ->
    sleep_result env (length (sleeps w)) (request_delay_call client c) = None ->
    resetRequestBody request (log_sleep (request_delay_call client c) w)
    = (request2, None, w2) ->
    sendRequest env client c request2 w2 = (response3, Some e3, w3) ->
    errors_Is (Some e3) ErrRetryable = true ->
    sleep_result env (length (sleeps w3)) (retry_delay_call env client c response3 attempt)
    = Some e4 ->
    turn_ends env client c request attempt response err w
      (mkDoResult response3 (Some (Errorf ErrNonRetryable EmptyString (Some e4)))
         (Some request2) (log_sleep (retry_delay_call env client c response3 attempt) w3)).

(** The ways in which the turn goes on to the next attempt, and the request,
    named results and log the next turn starts with. *)
Inductive turn_goes_on (env : Env) (client : Client) (c : Context) (request : Request)
    (attempt : Z) (w : World)
  : Request -> option Response -> option error -> World -> Prop :=
| turn_backs_off request2 w2 response3 e3 w3 :
    attempt < RetryCount client ->
    sleep_result env (length (sleeps w)) (request_delay_call client c) = None ->
    resetRequestBody request (log_sleep (request_delay_call client c) w)
    = (request2, None, w2) ->
    sendRequest env client c request2 w2 = (response3, Some e3, w3) ->
    errors_Is (Some e3) ErrRetryable = true ->
    sleep_result env (length (sleeps w3)) (retry_delay_call env client c response3 attempt)
    = None ->
    turn_goes_on env client c request attempt w
      request2 response3 None
      (log_sleep (retry_delay_call env client c response3 attempt) w3)
| turn_last_attempt request2 w2 response3 e3 w3 :
    attempt = RetryCount client ->
    sleep_result env (length (sleeps w)) (request_delay_call client c) = None ->
    resetRequestBody request (log_sleep (request_delay_call client c) w)
    = (request2, None, w2) ->
    sendRequest env client c request2 w2 = (response3, Some e3, w3) ->
    errors_Is (Some e3) ErrRetryable = true ->
    turn_goes_on env client c request attempt w
      request2 response3 (Some e3) w3.

(** ** The default client *)

(** The status codes of [net/http] and of the package [unofficial] that
    [DefaultStatus] lists. *)
Definition http_StatusRequestTimeout : Z := 408.
Definition http_StatusConflict : Z := 409.
Definition http_StatusLocked : Z := 423.
Definition http_StatusTooEarly : Z := 425.
Definition http_StatusTooManyRequests : Z := 429.
Definition http_StatusInternalServerError : Z := 500.
Definition http_StatusBadGateway : Z := 502.
Definition http_StatusServiceUnavailable : Z := 503.
Definition http_StatusGatewayTimeout : Z := 504.
Definition http_StatusInsufficientStorage : Z := 507.

Definition StatusEnhanceYourCalm : Z := 420.
Definition StatusRequestHeaderFieldsTooLarge : Z := 430.
Definition StatusBandwidthLimitExceeded : Z := 509.
Definition StatusWebServerReturnedAnUnknownError : Z := 520.
Definition StatusWebServerIsDown : Z := 521.
Definition StatusConnectionTimedOut : Z := 522.
Definition StatusOriginIsUnreachable : Z := 523.
Definition StatusTimeoutOccurred : Z := 524.
Definition StatusRailgunError : Z := 527.
Definition StatusSiteIsOverloaded : Z := 529.
Definition StatusCloudflareError : Z := 530.
Definition StatusNetworkReadTimeout : Z := 598.
Definition StatusNetworkConnectTimeout : Z := 599.

(** [DefaultStatus]. *)
Definition DefaultStatus : list Z :=
  [ http_StatusRequestTimeout;
    http_StatusConflict;
    StatusEnhanceYourCalm;
    http_StatusLocked;
    http_StatusTooEarly;
    http_StatusTooManyRequests;
    StatusRequestHeaderFieldsTooLarge;
    http_StatusInternalServerError;
    http_StatusBadGateway;
    http_StatusServiceUnavailable;
    http_StatusGatewayTimeout;
    http_StatusInsufficientStorage;
    StatusBandwidthLimitExceeded;
    StatusWebServerReturnedAnUnknownError;
    StatusWebServerIsDown;
    StatusConnectionTimedOut;
    StatusOriginIsUnreachable;
    StatusTimeoutOccurred;
    StatusRailgunError;
    StatusSiteIsOverloaded;
    StatusCloudflareError;
    StatusNetworkReadTimeout;
    StatusNetworkConnectTimeout ].

Definition time_Millisecond : Z := 1000000.
Definition time_Minute : Z := 60 * time_Second.

(** The [float64] values 1.5 and 0.5. *)
Definition float_one_and_a_half : spec_float := S754_finite false 6755399441055744 (-52).
Definition float_half : spec_float := S754_finite false 4503599627370496 (-53).

(** [DefaultClient], without its base [http.Client], which is the
    [transport] of the environment. *)
Definition DefaultClient : Client :=
  {| RetryStatus := DefaultStatus;
     RetryCount := 20;
     RetryDelay := 500 * time_Millisecond;
     RetryMultiplier := float_one_and_a_half;
     RetryJitter := float_half;
     RetryTimeout := 60 * time_Minute;
     RequestDelay := 10 * time_Millisecond;
     RequestJitter := float_half;
     RequestTimeout := 5 * time_Minute;
     RequestSize := 2 * 1024 * 1024 * 1024;
     ResponseSize := 2 * 1024 * 1024 * 1024 |}.

(** ** The duration of the exponential backoff *)






(** * Properties *)

(** Closed comparisons and equations between computed values. *)
Ltac by_computation :=
  vm_compute; repeat split; solve [reflexivity | intros; discriminate | congruence].

(** ** Machine integers and readers *)

Lemma wrap64_id (z : Z) : min_int64 <= z <= max_int64 -> wrap64 z = z.
Proof.
  unfold wrap64, min_int64, max_int64. intros H.
  rewrite Z.mod_small; lia.
Qed.

Lemma wrap64_range (z : Z) : min_int64 <= wrap64 z <= max_int64.
Proof.
  unfold wrap64, min_int64, max_int64.
  pose proof (Z.mod_pos_bound (z + 2 ^ 63) (2 ^ 64)). lia.
Qed.

Lemma io_ReadAll_data (bs : list byte) : io_ReadAll (map Data bs) = (bs, None, []).
Proof.
  induction bs as [|b bs IH]; simpl; [reflexivity|]. now rewrite IH.
Qed.

Lemma io_ReadAll_LimitReader_data (bs : list byte) :
  forall n, 0 <= n ->
    io_ReadAll_LimitReader n (map Data bs)
    = (take (Z.to_nat n) bs, None, map Data (drop (Z.to_nat n) bs)).
Proof.
  induction bs as [|b bs IH]; intros n Hn.
  - simpl. destruct (n <=? 0); rewrite take_nil, drop_nil; reflexivity.
  - simpl. destruct (Z.leb_spec n 0) as [H0|Hpos].
    + replace n with 0 by lia. reflexivity.
    + rewrite IH by lia.
      replace (Z.to_nat n) with (S (Z.to_nat (n - 1))) by lia. reflexivity.
Qed.

(** The stream never grows while it is read. *)
Lemma io_ReadAll_length (s : stream) :
  (length (io_ReadAll s).1.1 + length (io_ReadAll s).2 <= length s)%nat.
Proof.
  induction s as [|[b|e|] s IH]; simpl; try lia.
  destruct (io_ReadAll s) as [[bs err] rest]; simpl in *. lia.
Qed.

Lemma io_ReadAll_LimitReader_length (s : stream) :
  forall n,
    (length (io_ReadAll_LimitReader n s).1.1
     + length (io_ReadAll_LimitReader n s).2 <= length s)%nat.
Proof.
  induction s as [|[b|e|] s IH]; intros n; simpl; destruct (n <=? 0); simpl; try lia.
  specialize (IH (n - 1)).
  destruct (io_ReadAll_LimitReader (n - 1) s) as [[bs err] rest]; simpl in *. lia.
Qed.

Lemma io_ReadAll_LimitReader_bound (s : stream) :
  forall n, 0 <= n -> Z.of_nat (length (io_ReadAll_LimitReader n s).1.1) <= n.
Proof.
  induction s as [|[b|e|] s IH]; intros n Hn; simpl;
    destruct (Z.leb_spec n 0); simpl; try lia.
  specialize (IH (n - 1) ltac:(lia)).
  destruct (io_ReadAll_LimitReader (n - 1) s) as [[bs err] rest]; simpl in *. lia.
Qed.

Lemma read_limited_length (ceiling : Z) (s : stream) :
  (length (captured ceiling s) + length (read_limited ceiling s).2 <= length s)%nat.
Proof.
  unfold captured, read_limited. destruct (0 <? ceiling).
  - apply io_ReadAll_LimitReader_length.
  - apply io_ReadAll_length.
Qed.

Lemma captured_bound (ceiling : Z) (s : stream) :
  0 < ceiling -> Z.of_nat (length (captured ceiling s)) <= ceiling.
Proof.
  intros H. unfold captured, read_limited.
  destruct (Z.ltb_spec 0 ceiling); [|lia].
  apply io_ReadAll_LimitReader_bound. lia.
Qed.

Lemma io_Copy_Discard_bound (s : stream) :
  Z.of_nat (length s) <= max_int64 ->
  0 <= (io_Copy_Discard s).1.1 <= Z.of_nat (length s).
Proof.
  induction s as [|[b|e|] s IH]; simpl; intros H; try lia.
  destruct (io_Copy_Discard s) as [[n err] rest]; simpl in *.
  specialize (IH ltac:(lia)).
  rewrite wrap64_id; unfold min_int64; lia.
Qed.


Lemma drained_bound (ceiling : Z) (s : stream) :
  Z.of_nat (length s) <= max_int64 ->
  0 <= drained ceiling s
  /\ Z.of_nat (length (captured ceiling s)) + drained ceiling s <= Z.of_nat (length s).
Proof.
  intros H. pose proof (read_limited_length ceiling s) as Hl.
  unfold drained.
  pose proof (io_Copy_Discard_bound (read_limited ceiling s).2 ltac:(lia)). lia.
Qed.

(** ** prepareResponseBody *)

(** The three ways out of [prepareResponseBody], told by what the capture
    observed. *)
Lemma prepareResponseBody_read_error client response body e :
  capture_error (ResponseSize client) (pending body) = Some e ->
  let p := prepareResponseBody client response body in
  resp_err p = Some (Errorf ErrRetryable "unable to read response body" (Some e))
  /\ Body (resp_after p) = Some (original_after p)
  /\ closes (original_after p) = S (closes body).
Proof.
  unfold capture_error, prepareResponseBody.
  destruct (read_limited _ _) as [[buffer err] rest]; simpl.
  intros ->. simpl. auto.
Qed.

Lemma prepareResponseBody_drain_error client response body e :
  capture_error (ResponseSize client) (pending body) = None ->
  drain_error (ResponseSize client) (pending body) = Some e ->
  let p := prepareResponseBody client response body in
  resp_err p = Some (Errorf ErrRetryable "unable to discard response body" (Some e))
  /\ resp_after p
     = replace_response_body response (captured (ResponseSize client) (pending body))
  /\ closes (original_after p) = S (closes body).
Proof.
  unfold capture_error, drain_error, captured, prepareResponseBody.
  destruct (read_limited _ _) as [[buffer err] rest]; simpl.
  intros ->. destruct (io_Copy_Discard rest) as [[n err] rest']; simpl.
  intros ->. simpl. auto.
Qed.

Lemma prepareResponseBody_read client response body :
  capture_error (ResponseSize client) (pending body) = None ->
  drain_error (ResponseSize client) (pending body) = None ->
  let p := prepareResponseBody client response body in
  let size := wrap64 (drained (ResponseSize client) (pending body) + ResponseSize client) in
  resp_err p
  = (if retryable_status (RetryStatus client) (StatusCode response)
     then Some (Errorf ErrRetryable
                  ("invalid status code (" +:+ fmt_d (StatusCode response) +:+ ")") None)
     else if http_StatusBadRequest <=? StatusCode response
     then Some (Errorf ErrNonRetryable
                  ("invalid status code (" +:+ fmt_d (StatusCode response) +:+ ")") None)
     else if size_check (ResponseSize client) (pending body)
     then Some (Errorf ErrNonRetryable
                  ("response size exceeded (" +:+ fmt_d size +:+ ")") None)
     else None)
  /\ resp_after p
     = replace_response_body response (captured (ResponseSize client) (pending body))
  /\ closes (original_after p) = S (closes body).
Proof.
  unfold capture_error, drain_error, captured, size_check, drained, prepareResponseBody.
  destruct (read_limited _ _) as [[buffer err] rest]; simpl.
  intros ->. destruct (io_Copy_Discard rest) as [[n err] rest']; simpl.
  intros ->.
  destruct (retryable_status _ _); [simpl; auto|].
  destruct (http_StatusBadRequest <=? _); [simpl; auto|].
  destruct (_ && _); simpl; auto.
Qed.




(** C3, as stated, fails: when the capture itself fails (the [MockReader] of
    the tests), [prepareResponseBody] returns on line 508, before the
    replacement is deferred; the response keeps the original stream. *)
Lemma body_not_always_replaced : ~ body_always_replaced.
Proof.
  intros H.
  destruct (H zero_client (response_with_status 0) MockReader) as [Hbody _].
  vm_compute in Hbody. discriminate Hbody.
Qed.

(** C3, amended: [prepareResponseBody] closes the original stream exactly
    once on every path. On every path on which the capture read succeeds
    (success, size violation, retryable or fatal status, error while
    draining) the body of the response is an in-memory reader over the
    captured bytes, which reads back as these bytes without error, and
    [ContentLength] is their number. When the capture read fails, the body of
    the response is still the original stream, now closed. *)
Theorem response_body_after_prepare :
  forall client response body,
    let p := prepareResponseBody client response body in
    let buffer := captured (ResponseSize client) (pending body) in
    closes (original_after p) = S (closes body)
    /\ (capture_error (ResponseSize client) (pending body) = None ->
        Body (resp_after p) = Some (NopCloser_NewReader buffer)
        /\ ContentLength (resp_after p) = Z.of_nat (length buffer)
        /\ io_ReadAll (pending (NopCloser_NewReader buffer)) = (buffer, None, []))
    /\ (forall e, capture_error (ResponseSize client) (pending body) = Some e ->
        Body (resp_after p) = Some (original_after p)
        /\ resp_err p = Some (Errorf ErrRetryable "unable to read response body" (Some e))).
Proof.
  intros client response body p buffer. subst p buffer.
  destruct (capture_error (ResponseSize client) (pending body)) as [e|] eqn:Hc.
  - destruct (prepareResponseBody_read_error client response body e Hc) as (He & Hb & Hcl).
    split; [exact Hcl|]. split; [discriminate|].
    intros e' [= <-]. auto.
  - assert (resp_after (prepareResponseBody client response body)
            = replace_response_body response (captured (ResponseSize client) (pending body))
            /\ closes (original_after (prepareResponseBody client response body))
               = S (closes body)) as [Hr Hcl].
    { destruct (drain_error (ResponseSize client) (pending body)) as [e|] eqn:Hd.
      - destruct (prepareResponseBody_drain_error client response body e Hc Hd)
          as (_ & ? & ?); auto.
      - destruct (prepareResponseBody_read client response body Hc Hd) as (_ & ? & ?); auto. }
    split; [exact Hcl|]. split; [|discriminate].
    intros _. rewrite Hr. simpl. repeat split. apply io_ReadAll_data.
Qed.

(** The scenario of the tests: a ceiling of one byte and the body ["xyz"]
    give a fatal failure that mentions the size 3, and the replaced body
    reads back as ["x"]. *)
Lemma response_body_after_prepare_witness :
  let client := with_ResponseSize zero_client 1 in
  let p := prepareResponseBody client (response_with_status 0) (NopCloser_NewReader xyz) in
  resp_err p = Some (Errorf ErrNonRetryable "response size exceeded (3)" None)
  /\ Body (resp_after p) = Some (NopCloser_NewReader ["x"%byte])
  /\ closes (original_after p) = 1%nat.
Proof.
  intros client p.
  pose proof (response_body_after_prepare client (response_with_status 0)
                (NopCloser_NewReader xyz)) as (Hcl & Hread & _).
  specialize (Hread eq_refl) as (Hbody & _).
  split; [reflexivity|]. split; [exact Hbody| exact Hcl].
Defined.

(** C5, as stated, fails: with a ceiling of one byte, the body ["xyz"] and
    the status 503 in the retryable set, the outcome is the retryable failure
    of the first rule. *)
Lemma oversize_not_always_fatal : ~ oversize_always_fatal.
Proof.
  intros H.
  specialize (H (with_RetryStatus (with_ResponseSize zero_client 1) [503])
                (response_with_status 503) (NopCloser_NewReader xyz)).
  vm_compute in H.
  specialize (H eq_refl eq_refl). discriminate H.
Qed.

(** C5, amended: for every response whose status is not in the retryable
    set, whose body is captured and drained without a read error, and whose
    captured-plus-drained size exceeds a positive ceiling, the outcome is a
    fatal failure (the stream is short enough for the sum of line 537 to stay
    in the [int64] range). When the status is in the retryable set the
    outcome is the retryable failure of the first rule, and an error while
    the body is drained gives a retryable failure as well. *)
Theorem oversize_fatal_unless_retryable :
  forall client response body,
    0 < ResponseSize client ->
    ResponseSize client
    < Z.of_nat (length (captured (ResponseSize client) (pending body)))
      + drained (ResponseSize client) (pending body) ->
    Z.of_nat (length (pending body)) + ResponseSize client <= max_int64 ->
    capture_error (ResponseSize client) (pending body) = None ->
    (drain_error (ResponseSize client) (pending body) = None ->
     retryable_status (RetryStatus client) (StatusCode response) = false ->
     classify (resp_err (prepareResponseBody client response body)) = FatalFailure)
    /\ (drain_error (ResponseSize client) (pending body) = None ->
        retryable_status (RetryStatus client) (StatusCode response) = true ->
        classify (resp_err (prepareResponseBody client response body)) = RetryableFailure)
    /\ (drain_error (ResponseSize client) (pending body) <> None ->
        classify (resp_err (prepareResponseBody client response body)) = RetryableFailure).
Proof.
  intros client response body Hpos Hover Hlen Hc.
  pose proof (captured_bound (ResponseSize client) (pending body) Hpos) as Hcap.
  pose proof (drained_bound (ResponseSize client) (pending body) ltac:(lia)) as [Hd0 Hd1].
  split; [|split].
  - intros Hd Hst.
    destruct (prepareResponseBody_read client response body Hc Hd) as [-> _].
    rewrite Hst. destruct (http_StatusBadRequest <=? _); [reflexivity|].
    unfold size_check.
    rewrite wrap64_id by (unfold min_int64; lia).
    destruct (Z.ltb_spec 0 (ResponseSize client)); [|lia].
    destruct (Z.ltb_spec (ResponseSize client)
                (drained (ResponseSize client) (pending body) + ResponseSize client));
      [reflexivity|lia].
  - intros Hd Hst.
    destruct (prepareResponseBody_read client response body Hc Hd) as [-> _].
    rewrite Hst. reflexivity.
  - intros Hd.
    destruct (drain_error (ResponseSize client) (pending body)) as [e|] eqn:He;
      [|congruence].
    destruct (prepareResponseBody_drain_error client response body e Hc He) as [-> _].
    reflexivity.
Qed.

Lemma oversize_fatal_unless_retryable_witness :
  classify (resp_err (prepareResponseBody (with_ResponseSize zero_client 1)
                        (response_with_status 200) (NopCloser_NewReader xyz)))
  = FatalFailure.
Proof.
  refine (proj1 (oversize_fatal_unless_retryable (with_ResponseSize zero_client 1)
                   (response_with_status 200) (NopCloser_NewReader xyz) _ _ _ _) _ _);
    vm_compute; reflexivity || (intros; discriminate) || congruence.
Defined.

(** ** prepareRequestBody *)

(** The request is returned untouched when it has no body or has a
    [GetBody] already (line 389). *)
Lemma prepareRequestBody_noop client request :
  ReqBody request = None \/ GetBody request <> None ->
  prepareRequestBody client (Some request)
  = {| req_after := Some request; req_original_after := None; req_err := None |}.
Proof.
  unfold prepareRequestBody.
  destruct (ReqBody request) as [body|], (GetBody request) as [get|];
    intros [H|H]; congruence.
Qed.

(** Past line 403 the deferred closure runs on every path. *)
Lemma prepareRequestBody_captured client request body :
  ReqBody request = Some body ->
  GetBody request = None ->
  capture_error (RequestSize client) (pending body) = None ->
  let p := prepareRequestBody client (Some request) in
  let size := wrap64 (drained (RequestSize client) (pending body) + RequestSize client) in
  req_after p
  = Some (replace_request_body request (captured (RequestSize client) (pending body)))
  /\ (exists original, req_original_after p = Some original
                       /\ closes original = S (closes body))
  /\ req_err p
     = match drain_error (RequestSize client) (pending body) with
       | Some e => Some (Errorf ErrNonRetryable "unable to discard request body" (Some e))
       | None =>
           if size_check (RequestSize client) (pending body)
           then Some (Errorf ErrNonRetryable
                        ("request size exceeded (" +:+ fmt_d size +:+ ")") None)
           else None
       end.
Proof.
  unfold capture_error, drain_error, captured, size_check, drained, prepareRequestBody.
  intros -> ->.
  destruct (read_limited _ _) as [[buffer err] rest]; simpl.
  intros ->. destruct (io_Copy_Discard rest) as [[n err] rest']; simpl.
  destruct err as [e|]; simpl.
  - eauto.
  - destruct (_ && _); simpl; eauto.
Qed.





(** C8: [prepareRequestBody] leaves the request as it is when it has no body
    or already has [GetBody]. Otherwise, after a successful preparation, the
    installed [GetBody] returns, at every invocation, a fresh reader that
    reads back as the captured bytes without error, and the original stream
    was closed exactly once. *)
Theorem request_body_replay :
  forall client request,
    (ReqBody request = None \/ GetBody request <> None ->
     prepareRequestBody client (Some request)
     = {| req_after := Some request; req_original_after := None; req_err := None |})
    /\ (forall body,
        ReqBody request = Some body ->
        GetBody request = None ->
        let p := prepareRequestBody client (Some request) in
        let buffer := captured (RequestSize client) (pending body) in
        req_err p = None ->
        exists request' get original,
          req_after p = Some request'
          /\ GetBody request' = Some get
          /\ ReqContentLength request' = Z.of_nat (length buffer)
          /\ (forall n : nat,
                 get n = (Some (NopCloser_NewReader buffer), None)
                 /\ io_ReadAll (pending (NopCloser_NewReader buffer)) = (buffer, None, []))
          /\ req_original_after p = Some original
          /\ closes original = S (closes body)).
Proof.
  intros client request. split.
  - apply prepareRequestBody_noop.
  - intros body Hbody Hget p buffer Herr. subst p buffer.
    destruct (capture_error (RequestSize client) (pending body)) as [e|] eqn:Hc.
    + exfalso. revert Herr. unfold prepareRequestBody, capture_error in *.
      rewrite Hbody, Hget.
      destruct (read_limited _ _) as [[buffer err] rest]; simpl in *.
      rewrite Hc. discriminate.
    + destruct (prepareRequestBody_captured client request body Hbody Hget Hc)
        as (Hreq & (original & Ho & Hcl) & _).
      eexists _, _, original. split; [exact Hreq|].
      simpl. split; [reflexivity|]. split; [reflexivity|].
      split; [|auto]. intros n. split; [reflexivity|]. apply io_ReadAll_data.
Qed.

(** The scenario of the tests: the body ["xyz"] is read back by [GetBody]. *)
Lemma request_body_replay_witness :
  exists request' get original,
    req_after (prepareRequestBody zero_client
                 (Some (request_with_stream (NopCloser_NewReader xyz)))) = Some request'
    /\ GetBody request' = Some get
    /\ ReqContentLength request' = 3
    /\ (forall n : nat,
           get n = (Some (NopCloser_NewReader xyz), None)
           /\ io_ReadAll (pending (NopCloser_NewReader xyz)) = (xyz, None, []))
    /\ req_original_after (prepareRequestBody zero_client
                             (Some (request_with_stream (NopCloser_NewReader xyz))))
       = Some original
    /\ closes original = 1%nat.
Proof.
  exact (proj2 (request_body_replay zero_client
                  (request_with_stream (NopCloser_NewReader xyz)))
           (NopCloser_NewReader xyz) eq_refl eq_refl eq_refl).
Defined.

(** ** parseRetryDelay *)








(** ** sendRequest *)

Lemma sendRequest_unfold env client c request w :
  let exchange := transport env (length (sends w))
                    (WithContext request (attempt_context client c)) in
  (sendRequest env client c request w).1
  = if errors_Is_ctx exchange.2 Canceled || errors_Is_ctx exchange.2 DeadlineExceeded
    then (exchange.1, Some (Errorf ErrNonRetryable EmptyString exchange.2))
    else match exchange.2 with
         | Some e => (exchange.1, Some (Errorf ErrRetryable "unable to send request" (Some e)))
         | None =>
             match exchange.1 with
             | None => (None, Some (Errorf ErrRetryable "invalid response" None))
             | Some r =>
                 match Body r with
                 | None => (Some r, Some (Errorf ErrRetryable "invalid response" None))
                 | Some body =>
                     (Some (resp_after (prepareResponseBody client r body)),
                      resp_err (prepareResponseBody client r body))
                 end
             end
         end.
Proof.
  unfold sendRequest, do_send. simpl.
  destruct (transport env _ _) as [response err]. simpl.
  destruct (_ || _); [reflexivity|].
  destruct err; [reflexivity|].
  destruct response as [r|]; [|reflexivity].
  destruct (Body r); reflexivity.
Qed.

(** Every call of [sendRequest] is one exchange. *)
Lemma sendRequest_sends env client c request w :
  sends (sendRequest env client c request w).2
  = (sends w ++ [WithContext request (attempt_context client c)])%list
  /\ sleeps (sendRequest env client c request w).2 = sleeps w
  /\ regenerations (sendRequest env client c request w).2 = regenerations w.
Proof.
  unfold sendRequest, do_send. simpl.
  destruct (transport env _ _) as [response err]. simpl.
  destruct (_ || _); [auto|].
  destruct err; [auto|].
  destruct response as [r|]; [|auto].
  destruct (Body r); auto.
Qed.

(** C9, as stated, fails: with [RequestTimeout = 1] and a background outer
    context, the context of the attempt expires, the base client returns a
    deadline error although the outer context is alive, and [sendRequest]
    makes it a fatal failure. *)
Lemma send_errors_not_as_documented : ~ send_errors_as_documented.
Proof.
  intros H.
  destruct (H attempt_timeout_env (with_RequestTimeout zero_client 1) Background
              empty_request new_world) as (_ & Hother & _).
  specialize (Hother _ eq_refl).
  assert (Hfree : ~ caused_by_end_of attempt_timeout_env 0 Background
                      (wrapped "Get https://www.github.com/" context_DeadlineExceeded)).
  { intros (t & Ht & _). discriminate Ht. }
  specialize (Hother Hfree). vm_compute in Hother. discriminate Hother.
Qed.

(** C9, amended: in [sendRequest], a send error of the base client that is
    [context.Canceled] or [context.DeadlineExceeded] (directly or wrapped) is
    a fatal failure, whichever context produced it, the outer one or the one
    of the attempt; every other send error is a retryable failure; and without
    a send error, a nil response or a response with a nil body is a retryable
    failure. *)
Theorem send_error_classification :
  forall env client c request w,
    let exchange := transport env (length (sends w))
                      (WithContext request (attempt_context client c)) in
    let result := (sendRequest env client c request w).1 in
    (forall e, exchange.2 = Some e ->
       cause_Is e Canceled || cause_Is e DeadlineExceeded = true ->
       result = (exchange.1, Some (Errorf ErrNonRetryable EmptyString (Some e)))
       /\ classify result.2 = FatalFailure)
    /\ (forall e, exchange.2 = Some e ->
          cause_Is e Canceled || cause_Is e DeadlineExceeded = false ->
          result = (exchange.1, Some (Errorf ErrRetryable "unable to send request" (Some e)))
          /\ classify result.2 = RetryableFailure)
    /\ (exchange.2 = None ->
        (exchange.1 = None \/ exists r, exchange.1 = Some r /\ Body r = None) ->
        result = (exchange.1, Some (Errorf ErrRetryable "invalid response" None))
        /\ classify result.2 = RetryableFailure).
Proof.
  intros env client c request w exchange result.
  pose proof (sendRequest_unfold env client c request w) as Hs.
  fold exchange result in Hs. cbv zeta in Hs.
  split; [|split].
  - intros e He Hctx. rewrite Hs, He. simpl. rewrite Hctx. auto.
  - intros e He Hctx. rewrite Hs, He. simpl. rewrite Hctx. auto.
  - intros He Hnil. rewrite Hs, He. simpl.
    destruct Hnil as [->|(r & -> & ->)]; auto.
Qed.

(** The exchanges of the tests: an expired attempt is fatal, an unreachable
    host is retryable. *)
Lemma send_error_classification_witness :
  classify (sendRequest attempt_timeout_env (with_RequestTimeout zero_client 1) Background
              empty_request new_world).1.2 = FatalFailure
  /\ classify (sendRequest quiet_env zero_client Background empty_request new_world).1.2
     = RetryableFailure.
Proof.
  split.
  - exact (proj2 (proj1 (send_error_classification attempt_timeout_env
                           (with_RequestTimeout zero_client 1) Background
                           empty_request new_world) _ eq_refl eq_refl)).
  - exact (proj2 (proj1 (proj2 (send_error_classification quiet_env zero_client Background
                                  empty_request new_world)) _ eq_refl eq_refl)).
Defined.

(** ** applyRetryDelay *)


Lemma math_Max_one_cases (x : spec_float) :
  math_Max x float_one
  = match x with
    | S754_infinity false => S754_infinity false
    | S754_nan => S754_nan
    | S754_finite false m e =>
        if SFltb float_one (S754_finite false m e) then S754_finite false m e else float_one
    | _ => float_one
    end.
Proof.
  destruct x as [[|]|[|]| |[|] m e]; reflexivity.
Qed.

Lemma applyRetryDelay_sleeps env client c response attempt w :
  let call :=
    if 0 <? parseRetryDelay env response
    then RandomJitterWithContext c (parseRetryDelay env response) float_zero
    else ExponentialBackoffWithContext c (RetryDelay client)
           (math_Max (RetryMultiplier client) float_one) (RetryJitter client) attempt in
  applyRetryDelay env client c response attempt w
  = (wrap_sleep_error (sleep_result env (length (sleeps w)) call),
     {| sleeps := sleeps w ++ [call]; sends := sends w; regenerations := regenerations w |}).
Proof.
  unfold applyRetryDelay, do_sleep. destruct (0 <? _); reflexivity.
Qed.





(** ** Do *)

Lemma applyRequestDelay_world env client c w :
  sends (applyRequestDelay env client c w).2 = sends w.
Proof. reflexivity. Qed.

Lemma resetRequestBody_world request w :
  sends (resetRequestBody request w).2 = sends w.
Proof.
  unfold resetRequestBody. destruct (GetBody request) as [get|]; [|reflexivity].
  destruct (get _) as [body [e|]]; reflexivity.
Qed.

Lemma applyRetryDelay_world env client c response attempt w :
  sends (applyRetryDelay env client c response attempt w).2 = sends w.
Proof. rewrite applyRetryDelay_sleeps. reflexivity. Qed.

(** While the attempt counter cannot wrap around, the loop returns within
    [RetryCount - attempt + 1] turns, each of which sends at most once. *)
Lemma retry_loop_returns env client c :
  RetryCount client < max_int64 ->
  forall fuel request attempt response err w,
    min_int64 <= attempt ->
    (Z.to_nat (RetryCount client - attempt + 1) < fuel)%nat ->
    exists result,
      retry_loop fuel env client c request attempt response err w = Some result
      /\ Z.of_nat (length (sends (do_world result)))
         <= Z.of_nat (length (sends w)) + Z.max 0 (RetryCount client - attempt + 1).
Proof.
  intros Hmax fuel. induction fuel as [|fuel IH]; intros request attempt response err w Hmin Hfuel.
  - lia.
  - cbn [retry_loop].
    destruct (Z.leb_spec attempt (RetryCount client)) as [Hle|Hgt].
    2: { eexists. split; [reflexivity|]. cbn [do_world]. lia. }
    pose proof (applyRequestDelay_world env client c w) as Hw1.
    destruct (applyRequestDelay env client c w) as [err1 w1]. cbn [snd] in Hw1.
    destruct err1 as [e1|].
    { eexists. split; [reflexivity|]. cbn [do_world]. rewrite Hw1. lia. }
    pose proof (resetRequestBody_world request w1) as Hw2.
    destruct (resetRequestBody request w1) as [[request2 err2] w2]. cbn [snd] in Hw2.
    destruct err2 as [e2|].
    { eexists. split; [reflexivity|]. cbn [do_world]. rewrite Hw2, Hw1. lia. }
    pose proof (sendRequest_sends env client c request2 w2) as (Hw3 & _).
    destruct (sendRequest env client c request2 w2) as [[response3 err3] w3].
    cbn [snd] in Hw3.
    assert (Hlen3 : Z.of_nat (length (sends w3)) = Z.of_nat (length (sends w)) + 1).
    { rewrite Hw3, length_app, Hw2, Hw1. cbn [length]. lia. }
    destruct err3 as [e3|].
    2: { eexists. split; [reflexivity|]. cbn [do_world]. lia. }
    destruct (negb (errors_Is (Some e3) ErrRetryable)).
    { eexists. split; [reflexivity|]. cbn [do_world]. lia. }
    assert (Hwrap : wrap64 (attempt + 1) = attempt + 1)
      by (apply wrap64_id; unfold max_int64, min_int64 in *; lia).
    rewrite Hwrap.
    destruct (Z.ltb_spec attempt (RetryCount client)) as [Hlt|Hge].
    + pose proof (applyRetryDelay_world env client c response3 attempt w3) as Hw4.
      destruct (applyRetryDelay env client c response3 attempt w3) as [err4 w4].
      cbn [snd] in Hw4.
      destruct err4 as [e4|].
      { eexists. split; [reflexivity|]. cbn [do_world]. rewrite Hw4. lia. }
      destruct (IH request2 (attempt + 1) response3 None w4) as (result & Hr & Hb);
        [lia|lia|].
      exists result. split; [exact Hr|]. rewrite Hw4 in Hb. lia.
    + destruct (IH request2 (attempt + 1) response3 (Some e3) w3) as (result & Hr & Hb);
        [lia|lia|].
      exists result. split; [exact Hr|]. lia.
Qed.

(** [Do] returns, after at most [max(RetryCount + 1, 0)] exchanges, for
    every client whose [RetryCount] is below the largest [int]. *)
Lemma Do_returns env client request :
  RetryCount client < max_int64 ->
  exists result,
    Do (enough_fuel client) env client request = Some result
    /\ Z.of_nat (length (sends (do_world result))) <= Z.max 0 (RetryCount client + 1).
Proof.
  intros Hmax. unfold Do.
  destruct (req_err (prepareRequestBody client request)) as [e|].
  { eexists. split; [reflexivity|]. cbn. lia. }
  destruct (req_after (prepareRequestBody client request)) as [req|].
  2: { eexists. split; [reflexivity|]. cbn. lia. }
  match goal with
  | |- context [retry_loop _ _ _ ?c req 0 None None new_world] =>
      destruct (retry_loop_returns env client c Hmax (enough_fuel client) req 0
                  None None new_world) as (result & Hr & Hb)
  end.
  - unfold min_int64. lia.
  - unfold enough_fuel. replace (RetryCount client - 0 + 1) with (RetryCount client + 1) by lia.
    lia.
  - exists result. split; [exact Hr|].
    cbn [new_world sends length] in Hb.
    replace (RetryCount client - 0 + 1) with (RetryCount client + 1) in Hb by lia. lia.
Qed.

(** With [RetryCount] at the largest [int] the test [attempt <= RetryCount]
    never fails: against a host that cannot be reached, the loop is still
    running whatever fuel it is given. *)
Lemma retry_loop_spins_at_max_int fuel :
  forall attempt response err w,
    attempt <= max_int64 ->
    retry_loop fuel quiet_env (with_RetryCount zero_client max_int64) Background
      empty_request attempt response err w = None.
Proof.
  induction fuel as [|fuel IH]; intros attempt response err w Hle; [reflexivity|].
  cbn [retry_loop].
  destruct (Z.leb_spec attempt (RetryCount (with_RetryCount zero_client max_int64)))
    as [_|Hgt].
  - cbn. destruct (attempt <? max_int64); apply IH; apply wrap64_range.
  - exfalso. cbn [RetryCount with_RetryCount] in Hgt. lia.
Qed.

Lemma Do_never_returns_at_max_int fuel :
  Do fuel quiet_env (with_RetryCount zero_client max_int64) (Some empty_request) = None.
Proof.
  unfold Do. cbn. apply retry_loop_spins_at_max_int. unfold max_int64. lia.
Qed.

(** C10: when [RetryCount] is negative and the preparation of the body
    passes, [Do] runs no turn of its loop: no sleep, no regeneration of the
    body and no exchange, and it returns a nil response with a nil error. *)
Theorem Do_negative_RetryCount :
  forall fuel env client request,
    RetryCount client < 0 ->
    req_err (prepareRequestBody client request) = None ->
    exists result,
      Do (S fuel) env client request = Some result
      /\ do_response result = None
      /\ do_err result = None
      /\ do_world result = new_world.
Proof.
  intros fuel env client request Hneg Hprep. unfold Do. rewrite Hprep.
  destruct (req_after (prepareRequestBody client request)) as [req|].
  - cbn [retry_loop].
    destruct (Z.leb_spec 0 (RetryCount client)); [lia|].
    eexists. split; [reflexivity|]. auto.
  - eexists. split; [reflexivity|]. auto.
Qed.

Lemma Do_negative_RetryCount_witness :
  exists result,
    Do 1 always_200_env (with_RetryCount zero_client (-1)) (Some empty_request) = Some result
    /\ do_response result = None
    /\ do_err result = None
    /\ do_world result = new_world.
Proof.
  apply Do_negative_RetryCount; by_computation.
Defined.

(** C2, as stated, fails: with [RetryCount = -2] the loop is not entered, so
    [Do] makes no exchange, and zero is more than [RetryCount + 1 = -1]. *)
Lemma sends_not_bounded_for_every_client : ~ sends_bounded_for_every_client.
Proof.
  intros H.
  destruct (H quiet_env (with_RetryCount zero_client (-2)) (Some empty_request))
    as (fuel & result & Hdo & Hbound).
  destruct fuel as [|fuel]; [discriminate Hdo|].
  cbn in Hdo. injection Hdo as <-. cbn in Hbound. lia.
Qed.

(** One turn of the loop against an endpoint that answers with a status of
    the retryable set, when no sleep is interrupted and [GetBody] does not
    fail: one exchange, then the next turn. *)
Lemma retry_loop_retryable_status_turn fuel env client c request attempt response err w code :
  (forall n call, sleep_result env n call = None) ->
  (forall get n, GetBody request = Some get -> (get n).2 = None) ->
  (forall n rq, exists r body,
      transport env n rq = (Some r, None) /\ StatusCode r = code /\ Body r = Some body
      /\ capture_error (ResponseSize client) (pending body) = None
      /\ drain_error (ResponseSize client) (pending body) = None) ->
  retryable_status (RetryStatus client) code = true ->
  attempt <= RetryCount client ->
  exists request2 rq r body w4,
    transport env (length (sends w)) rq = (Some r, None)
    /\ Body r = Some body
    /\ sends w4 = (sends w ++ [rq])%list
    /\ GetBody request2 = GetBody request
    /\ retry_loop (S fuel) env client c request attempt response err w
       = retry_loop fuel env client c request2 (wrap64 (attempt + 1))
           (Some (resp_after (prepareResponseBody client r body)))
           (if attempt <? RetryCount client then None
            else Some (Errorf ErrRetryable
                         ("invalid status code (" +:+ fmt_d code +:+ ")") None))
           w4.
Proof.
  intros Hsleep Hget Hsend Hstatus Hle.
  cbn [retry_loop]. destruct (Z.leb_spec attempt (RetryCount client)); [|lia].
  unfold applyRequestDelay, do_sleep. rewrite Hsleep. cbn [wrap_sleep_error].
  set (w1 := {| sleeps := _; sends := sends w; regenerations := regenerations w |}).
  assert (exists request2 w2,
             resetRequestBody request w1 = (request2, None, w2)
             /\ sends w2 = sends w /\ GetBody request2 = GetBody request)
    as (request2 & w2 & -> & Hw2 & Hg2).
  { unfold resetRequestBody. destruct (GetBody request) as [get|] eqn:Hg.
    - specialize (Hget get (regenerations w1) eq_refl).
      destruct (get (regenerations w1)) as [b e]. cbn in Hget. subst e.
      eexists _, _. split; [reflexivity|]. split; reflexivity.
    - eexists _, _. split; [reflexivity|]. split; [reflexivity|exact Hg]. }
  destruct (Hsend (length (sends w2)) (WithContext request2 (attempt_context client c)))
    as (r & body & Ht & Hcode & Hbody & Hc & Hd).
  pose proof (sendRequest_unfold env client c request2 w2) as Hs.
  pose proof (sendRequest_sends env client c request2 w2) as (Hw3 & _).
  cbv zeta in Hs. rewrite Ht in Hs. cbn [fst snd errors_Is_ctx orb] in Hs.
  rewrite Hbody in Hs.
  destruct (prepareResponseBody_read client r body Hc Hd) as (Herr & _).
  rewrite Hcode, Hstatus in Herr. rewrite Herr in Hs.
  destruct (sendRequest env client c request2 w2) as [[response3 err3] w3].
  cbn [fst snd] in Hs, Hw3. injection Hs as -> ->.
  cbn [errors_Is err_wraps is_sentinel negb].
  exists request2, (WithContext request2 (attempt_context client c)), r, body.
  destruct (attempt <? RetryCount client).
  - rewrite applyRetryDelay_sleeps. cbv zeta. rewrite Hsleep. cbn [wrap_sleep_error].
    eexists. rewrite <- Hw2 at 1. split; [exact Ht|]. split; [exact Hbody|].
    split; [|split; [exact Hg2|reflexivity]].
    cbn [sends]. rewrite Hw3, Hw2. reflexivity.
  - exists w3. rewrite <- Hw2 at 1. split; [exact Ht|]. split; [exact Hbody|].
    split; [|split; [exact Hg2|reflexivity]].
    rewrite Hw3, Hw2. reflexivity.
Qed.

Lemma prepareRequestBody_keeps_request client request :
  exists request', req_after (prepareRequestBody client (Some request)) = Some request'.
Proof.
  unfold prepareRequestBody.
  destruct (ReqBody request) as [body|], (GetBody request) as [get|]; eauto.
  destruct (read_limited _ _) as [[buffer [e|]] rest]; eauto.
  destruct (io_Copy_Discard rest) as [[n [e|]] rest']; eauto.
  destruct (_ && _); eauto.
Qed.

(** The scenario with [RetryCount = 1] and 200 in the retryable set. *)
Lemma Do_retries_retryable_200 env client request :
  RetryCount client = 1 ->
  retryable_status (RetryStatus client) 200 = true ->
  req_err (prepareRequestBody client (Some request)) = None ->
  (forall n call, sleep_result env n call = None) ->
  (forall request' get n,
      req_after (prepareRequestBody client (Some request)) = Some request' ->
      GetBody request' = Some get -> (get n).2 = None) ->
  (forall n rq, exists r body,
      transport env n rq = (Some r, None) /\ StatusCode r = 200 /\ Body r = Some body
      /\ capture_error (ResponseSize client) (pending body) = None
      /\ drain_error (ResponseSize client) (pending body) = None) ->
  exists result rq1 rq2 r body,
    Do (enough_fuel client) env client (Some request) = Some result
    /\ sends (do_world result) = [rq1; rq2]
    /\ transport env 1 rq2 = (Some r, None)
    /\ Body r = Some body
    /\ do_response result = Some (resp_after (prepareResponseBody client r body))
    /\ do_err result = Some (Errorf ErrRetryable "invalid status code (200)" None)
    /\ classify (do_err result) = RetryableFailure.
Proof.
  intros Hcount Hstatus Hprep Hsleep Hget Hsend.
  unfold Do, enough_fuel. rewrite Hprep, Hcount.
  destruct (prepareRequestBody_keeps_request client request) as [req Hreq].
  rewrite Hreq. specialize (Hget req).
  change (Z.to_nat (1 + 1) + 1)%nat with 3%nat.
  set (c := if 0 <? RetryTimeout client then _ else _).
  destruct (retry_loop_retryable_status_turn 2 env client c req 0 None None new_world 200)
    as (req1 & rq1 & r1 & body1 & w1 & _ & _ & Hw1 & Hg1 & ->); auto; [lia|].
  assert (Hwrap1 : wrap64 (0 + 1) = 1) by reflexivity. rewrite Hwrap1.
  destruct (retry_loop_retryable_status_turn 1 env client c req1 1
              (Some (resp_after (prepareResponseBody client r1 body1)))
              (if 0 <? RetryCount client then None
               else Some (Errorf ErrRetryable
                            ("invalid status code (" +:+ fmt_d 200 +:+ ")") None))
              w1 200)
    as (req2 & rq2 & r2 & body2 & w2 & Ht2 & Hb2 & Hw2 & Hg2 & ->); auto.
  { intros get n Hg. apply (Hget get n Hreq). now rewrite <- Hg1. }
  { lia. }
  assert (Hwrap2 : wrap64 (1 + 1) = 2) by reflexivity. rewrite Hwrap2.
  cbn [retry_loop]. rewrite Hcount. cbn [Z.leb Z.compare Pos.compare Pos.compare_cont Z.ltb].
  rewrite Hw1 in Ht2. cbn [new_world sends app length] in Ht2.
  exists {| do_response := Some (resp_after (prepareResponseBody client r2 body2));
            do_err := Some (Errorf ErrRetryable
                              ("invalid status code (" +:+ fmt_d 200 +:+ ")") None);
            do_request := Some req2; do_world := w2 |}, rq1, rq2, r2, body2.
  split; [reflexivity|]. cbn [do_world do_response do_err].
  split; [rewrite Hw2, Hw1; reflexivity|].
  split; [exact Ht2|]. split; [exact Hb2|]. split; [reflexivity|].
  split; reflexivity.
Qed.

(** C2, amended: for every client whose [RetryCount] is below the largest
    [int] and for every request, one call of [Do] returns after at most
    [max(RetryCount + 1, 0)] exchanges, which is [RetryCount + 1] as soon as
    [RetryCount] is at least -1. In particular, with [RetryCount = 1] and 200
    in the retryable set, a request to an endpoint that always answers 200
    with a readable body, when no sleep is interrupted and the body of the
    request can be regenerated, makes exactly two exchanges, and [Do] returns
    the second response together with a retryable failure whose text is
    [invalid status code (200)]. *)
Theorem Do_sends_bounded :
  (forall env client request,
      RetryCount client < max_int64 ->
      exists result,
        Do (enough_fuel client) env client request = Some result
        /\ Z.of_nat (length (sends (do_world result))) <= Z.max 0 (RetryCount client + 1)
        /\ (-1 <= RetryCount client ->
            Z.of_nat (length (sends (do_world result))) <= RetryCount client + 1))
  /\ (forall env client request,
        RetryCount client = 1 ->
        retryable_status (RetryStatus client) 200 = true ->
        req_err (prepareRequestBody client (Some request)) = None ->
        (forall n call, sleep_result env n call = None) ->
        (forall request' get n,
            req_after (prepareRequestBody client (Some request)) = Some request' ->
            GetBody request' = Some get -> (get n).2 = None) ->
        (forall n rq, exists r body,
            transport env n rq = (Some r, None) /\ StatusCode r = 200 /\ Body r = Some body
            /\ capture_error (ResponseSize client) (pending body) = None
            /\ drain_error (ResponseSize client) (pending body) = None) ->
        exists result rq1 rq2 r body,
          Do (enough_fuel client) env client (Some request) = Some result
          /\ sends (do_world result) = [rq1; rq2]
          /\ transport env 1 rq2 = (Some r, None)
          /\ Body r = Some body
          /\ do_response result = Some (resp_after (prepareResponseBody client r body))
          /\ do_err result = Some (Errorf ErrRetryable "invalid status code (200)" None)
          /\ classify (do_err result) = RetryableFailure).
Proof.
  split.
  - intros env client request Hmax.
    destruct (Do_returns env client request Hmax) as (result & Hdo & Hbound).
    exists result. split; [exact Hdo|]. split; [exact Hbound|]. lia.
  - apply Do_retries_retryable_200.
Qed.

(** The run of the tests: [RetryCount = 1], [RetryStatus = [200]], and an
    endpoint that answers 200 with the body ["xyz"]. *)
Lemma Do_sends_bounded_witness :
  let client := with_RetryCount (with_RetryStatus zero_client [200]) 1 in
  (exists result,
      Do (enough_fuel client) always_200_env client (Some empty_request) = Some result
      /\ Z.of_nat (length (sends (do_world result))) <= Z.max 0 (RetryCount client + 1)
      /\ (-1 <= RetryCount client ->
          Z.of_nat (length (sends (do_world result))) <= RetryCount client + 1))
  /\ (exists result rq1 rq2 r body,
         Do (enough_fuel client) always_200_env client (Some empty_request) = Some result
         /\ sends (do_world result) = [rq1; rq2]
         /\ transport always_200_env 1 rq2 = (Some r, None)
         /\ Body r = Some body
         /\ do_response result = Some (resp_after (prepareResponseBody client r body))
         /\ do_err result = Some (Errorf ErrRetryable "invalid status code (200)" None)
         /\ classify (do_err result) = RetryableFailure).
Proof.
  intros client. split.
  - apply (proj1 Do_sends_bounded always_200_env client (Some empty_request)).
    by_computation.
  - apply (proj2 Do_sends_bounded always_200_env client empty_request);
      try reflexivity.
    + intros request' get n [= <-]. discriminate.
    + intros n rq. eexists _, _. repeat split.
Defined.

(** ** The outcome of one call of Do *)

(** A nil error of [prepareResponseBody] tells everything about the
    response. *)
Lemma prepareResponseBody_success client r body :
  resp_err (prepareResponseBody client r body) = None ->
  capture_error (ResponseSize client) (pending body) = None
  /\ drain_error (ResponseSize client) (pending body) = None
  /\ retryable_status (RetryStatus client) (StatusCode r) = false
  /\ StatusCode r < http_StatusBadRequest
  /\ size_check (ResponseSize client) (pending body) = false
  /\ resp_after (prepareResponseBody client r body)
     = replace_response_body r (captured (ResponseSize client) (pending body)).
Proof.
  intros Hok.
  destruct (capture_error (ResponseSize client) (pending body)) as [e|] eqn:Hc.
  { destruct (prepareResponseBody_read_error client r body e Hc) as [He _].
    rewrite He in Hok. discriminate. }
  destruct (drain_error (ResponseSize client) (pending body)) as [e|] eqn:Hd.
  { destruct (prepareResponseBody_drain_error client r body e Hc Hd) as [He _].
    rewrite He in Hok. discriminate. }
  destruct (prepareResponseBody_read client r body Hc Hd) as (He & Hr & _).
  rewrite He in Hok.
  destruct (retryable_status _ _); [discriminate|].
  destruct (Z.leb_spec http_StatusBadRequest (StatusCode r)); [discriminate|].
  destruct (size_check _ _); [discriminate|]. repeat split; assumption.
Qed.

Lemma sendRequest_exchange_error env client c request w :
  (sendRequest env client c request w).1.2
  = exchange_error client
      (transport env (length (sends w)) (WithContext request (attempt_context client c))).
Proof.
  pose proof (sendRequest_unfold env client c request w) as Hs. cbv zeta in Hs.
  rewrite (surjective_pairing (sendRequest env client c request w).1) in Hs.
  unfold exchange_error.
  destruct (transport env _ _) as [response err]. cbn [fst snd] in *.
  destruct (_ || _); [now inversion Hs|].
  destruct err; [now inversion Hs|].
  destruct response as [r|]; [|now inversion Hs].
  destruct (Body r); now inversion Hs.
Qed.

Lemma sendRequest_success env client c request w response w' :
  sendRequest env client c request w = (response, None, w') ->
  exists r body,
    transport env (length (sends w)) (WithContext request (attempt_context client c))
    = (Some r, None)
    /\ Body r = Some body
    /\ response = Some (resp_after (prepareResponseBody client r body))
    /\ resp_err (prepareResponseBody client r body) = None.
Proof.
  intros Hsend.
  pose proof (sendRequest_unfold env client c request w) as Hs. cbv zeta in Hs.
  rewrite Hsend in Hs. cbn [fst] in Hs.
  destruct (transport env _ _) as [tresponse terr]. cbn [fst snd] in Hs.
  destruct (_ || _); [discriminate|].
  destruct terr; [discriminate|].
  destruct tresponse as [r|]; [|discriminate].
  destruct (Body r) as [body|] eqn:Hb; [|discriminate].
  injection Hs as -> Herr. exists r, body. repeat split; congruence.
Qed.

(** The errors of the two sleeps and of the regeneration are fatal. *)
Lemma wrap_sleep_error_fatal r :
  errors_Is (wrap_sleep_error r) ErrRetryable = false.
Proof. destruct r; reflexivity. Qed.

Lemma resetRequestBody_effect request w :
  let r := resetRequestBody request w in
  sends r.2 = sends w
  /\ sleeps r.2 = sleeps w
  /\ GetBody r.1.1 = GetBody request
  /\ ReqContentLength r.1.1 = ReqContentLength request
  /\ ctx r.1.1 = ctx request
  /\ errors_Is r.1.2 ErrRetryable = false.
Proof.
  unfold resetRequestBody. destruct (GetBody request) as [get|] eqn:Hg; cbn.
  - destruct (get _) as [body [e|]]; cbn; auto 10.
  - auto 10.
Qed.

Lemma prepareRequestBody_error_fatal client request e :
  req_err (prepareRequestBody client request) = Some e -> err_wraps e = ErrNonRetryable.
Proof.
  unfold prepareRequestBody. destruct request as [req|]; [|now intros [= <-]].
  destruct (ReqBody req) as [body|], (GetBody req) as [get|]; try discriminate.
  destruct (read_limited _ _) as [[buffer [e1|]] rest]; [now intros [= <-]|].
  destruct (io_Copy_Discard rest) as [[n [e2|]] rest']; [now intros [= <-]|].
  destruct (_ && _); [now intros [= <-]|discriminate].
Qed.

(** When the loop returns a nil error it returns the response of an
    exchange that the validator accepted. *)
Lemma retry_loop_success env client c :
  RetryCount client < max_int64 ->
  forall fuel request attempt response err w result,
    min_int64 <= attempt ->
    (err = None -> attempt <= RetryCount client) ->
    retry_loop fuel env client c request attempt response err w = Some result ->
    do_err result = None ->
    exists n rq r body,
      transport env n rq = (Some r, None)
      /\ Body r = Some body
      /\ do_response result = Some (resp_after (prepareResponseBody client r body))
      /\ resp_err (prepareResponseBody client r body) = None.
Proof.
  intros Hmax fuel. induction fuel as [|fuel IH];
    intros request attempt response err w result Hmin Hentry Hloop Hnil; [discriminate|].
  cbn [retry_loop] in Hloop.
  destruct (Z.leb_spec attempt (RetryCount client)) as [Hle|Hgt].
  2: { injection Hloop as <-. cbn in Hnil. specialize (Hentry Hnil). lia. }
  destruct (applyRequestDelay env client c w) as [[e1|] w1].
  { injection Hloop as <-. discriminate Hnil. }
  destruct (resetRequestBody request w1) as [[request2 [e2|]] w2].
  { injection Hloop as <-. discriminate Hnil. }
  destruct (sendRequest env client c request2 w2) as [[response3 [e3|]] w3] eqn:Hsend.
  2: { injection Hloop as <-.
       destruct (sendRequest_success _ _ _ _ _ _ _ Hsend) as (r & body & Ht & Hb & -> & Hok).
       eauto 10. }
  destruct (negb (errors_Is (Some e3) ErrRetryable)).
  { injection Hloop as <-. discriminate Hnil. }
  assert (Hwrap : wrap64 (attempt + 1) = attempt + 1)
    by (apply wrap64_id; unfold max_int64, min_int64 in *; lia).
  rewrite Hwrap in Hloop.
  destruct (Z.ltb_spec attempt (RetryCount client)) as [Hlt|Hge].
  - destruct (applyRetryDelay env client c response3 attempt w3) as [[e4|] w4].
    { injection Hloop as <-. discriminate Hnil. }
    eapply IH; [| |exact Hloop|exact Hnil]; lia.
  - eapply IH; [| |exact Hloop|exact Hnil]; [lia|discriminate].
Qed.

Lemma Do_unfold fuel env client request :
  Do fuel env client (Some request)
  = match req_err (prepareRequestBody client (Some request)),
          req_after (prepareRequestBody client (Some request)) with
    | Some e, after => Some (mkDoResult None (Some e) after new_world)
    | None, Some req =>
        retry_loop fuel env client (retry_context client req) req 0 None None new_world
    | None, None => Some (mkDoResult None None None new_world)
    end.
Proof.
  unfold Do, retry_context.
  destruct (req_err _); [reflexivity|]. destruct (req_after _); reflexivity.
Qed.

(** X1. When [Do] returns a nil error (and [RetryCount] is not negative),
    the response it returns is the answer of an exchange that the validator
    accepted: its status is below 400 and outside the retryable set, its
    body is an in-memory reader over the captured bytes and [ContentLength]
    is their number. *)
Theorem Do_success_is_accepted_response :
  forall fuel env client request result,
    0 <= RetryCount client < max_int64 ->
    Do fuel env client request = Some result ->
    do_err result = None ->
    exists n rq r body response,
      transport env n rq = (Some r, None)
      /\ Body r = Some body
      /\ do_response result = Some response
      /\ StatusCode response = StatusCode r
      /\ Header response = Header r
      /\ StatusCode r < 400
      /\ retryable_status (RetryStatus client) (StatusCode r) = false
      /\ Body response
         = Some (NopCloser_NewReader (captured (ResponseSize client) (pending body)))
      /\ ContentLength response
         = Z.of_nat (length (captured (ResponseSize client) (pending body))).
Proof.
  intros fuel env client request result [Hpos Hmax] Hdo Hnil.
  destruct request as [request|].
  2: { cbn in Hdo. injection Hdo as <-. discriminate Hnil. }
  rewrite Do_unfold in Hdo.
  destruct (req_err (prepareRequestBody client (Some request))) as [e|].
  { injection Hdo as <-. discriminate Hnil. }
  destruct (prepareRequestBody_keeps_request client request) as [req Hreq].
  rewrite Hreq in Hdo.
  destruct (retry_loop_success env client (retry_context client req) Hmax
              fuel req 0 None None new_world result) as (n & rq & r & body & Ht & Hb & Hr & Hok);
    [unfold min_int64; lia|intros _; lia|exact Hdo|exact Hnil|].
  destruct (prepareResponseBody_success client r body Hok) as (_ & _ & Hst & Hlt & _ & Hafter).
  exists n, rq, r, body, (resp_after (prepareResponseBody client r body)).
  rewrite Hafter. repeat split; assumption || (rewrite <- Hafter; exact Hr).
Qed.

Lemma Do_success_is_accepted_response_witness :
  exists result response,
    Do 2 always_200_env zero_client (Some empty_request) = Some result
    /\ do_response result = Some response
    /\ StatusCode response = 200
    /\ Body response = Some (NopCloser_NewReader xyz).
Proof.
  destruct (Do 2 always_200_env zero_client (Some empty_request)) as [result|] eqn:Hdo;
    [|vm_compute in Hdo; discriminate Hdo].
  assert (Hnil : do_err result = None).
  { pose proof Hdo as Hc. vm_compute in Hc. injection Hc as <-. reflexivity. }
  destruct (Do_success_is_accepted_response 2 always_200_env zero_client _ result
              ltac:(by_computation) Hdo Hnil)
    as (n & rq & r & body & response & Ht & Hb & Hr & Hs & _ & _ & _ & Hbody & _).
  cbn in Ht. injection Ht as <-. cbn in Hb. injection Hb as <-.
  exists result, response. repeat split; assumption.
Defined.

(** ** Exhausted attempts *)

(** Each turn of the loop that goes on has made exactly one exchange. *)
Lemma retry_loop_retryable_is_exhausted env client c :
  RetryCount client < max_int64 ->
  forall fuel request attempt response err w result,
    0 <= attempt <= RetryCount client + 1 ->
    Z.of_nat (length (sends w)) = attempt ->
    retry_loop fuel env client c request attempt response err w = Some result ->
    errors_Is (do_err result) ErrRetryable = true ->
    Z.of_nat (length (sends (do_world result))) = RetryCount client + 1.
Proof.
  intros Hmax fuel. induction fuel as [|fuel IH];
    intros request attempt response err w result Hatt Hsends Hloop Hretry; [discriminate|].
  cbn [retry_loop] in Hloop.
  destruct (Z.leb_spec attempt (RetryCount client)) as [Hle|Hgt].
  2: { injection Hloop as <-. cbn [do_world]. lia. }
  pose proof (wrap_sleep_error_fatal
                (sleep_result env (length (sleeps w))
                   (RandomJitterWithContext c (RequestDelay client) (RequestJitter client))))
    as Hfatal1.
  pose proof (applyRequestDelay_world env client c w) as Hw1.
  unfold applyRequestDelay, do_sleep in Hloop, Hw1. cbn [snd] in Hw1.
  match type of Hloop with
  | context [{| sleeps := ?s; sends := sends w; regenerations := regenerations w |}] =>
      set (w1 := {| sleeps := s; sends := sends w; regenerations := regenerations w |}) in *
  end.
  destruct (wrap_sleep_error _) as [e1|].
  { injection Hloop as <-. cbn in Hretry. cbn in Hfatal1. congruence. }
  pose proof (resetRequestBody_effect request w1) as (Hw2 & _ & _ & _ & _ & Hfatal2).
  destruct (resetRequestBody request w1) as [[request2 err2] w2]. cbn [fst snd] in *.
  destruct err2 as [e2|].
  { injection Hloop as <-. cbn [do_err] in Hretry. congruence. }
  pose proof (sendRequest_sends env client c request2 w2) as (Hw3 & _).
  destruct (sendRequest env client c request2 w2) as [[response3 err3] w3].
  cbn [snd] in Hw3.
  assert (Hlen3 : Z.of_nat (length (sends w3)) = attempt + 1).
  { rewrite Hw3, length_app, Hw2. cbn [length]. subst w1. cbn [sends]. lia. }
  destruct err3 as [e3|].
  2: { injection Hloop as <-. discriminate Hretry. }
  destruct (errors_Is (Some e3) ErrRetryable) eqn:He3; cbn [negb] in Hloop.
  2: { injection Hloop as <-. cbn [do_err] in Hretry. congruence. }
  assert (Hwrap : wrap64 (attempt + 1) = attempt + 1)
    by (apply wrap64_id; unfold max_int64, min_int64 in *; lia).
  rewrite Hwrap in Hloop.
  destruct (Z.ltb_spec attempt (RetryCount client)) as [Hlt|Hge].
  - rewrite applyRetryDelay_sleeps in Hloop. cbv zeta in Hloop.
    match type of Hloop with
    | context [wrap_sleep_error ?r] => pose proof (wrap_sleep_error_fatal r) as Hfatal4
    end.
    destruct (wrap_sleep_error _) as [e4|].
    { injection Hloop as <-. cbn [do_err] in Hretry. congruence. }
    eapply IH; [| |exact Hloop|exact Hretry]; [lia|cbn [sends]; lia].
  - eapply IH; [| |exact Hloop|exact Hretry]; lia.
Qed.

(** X2. When [Do] returns a retryable failure, the attempts are exhausted:
    exactly [RetryCount + 1] exchanges were made. *)
Theorem Do_retryable_failure_is_exhausted :
  forall fuel env client request result,
    RetryCount client < max_int64 ->
    Do fuel env client request = Some result ->
    classify (do_err result) = RetryableFailure ->
    0 <= RetryCount client
    /\ Z.of_nat (length (sends (do_world result))) = RetryCount client + 1.
Proof.
  intros fuel env client request result Hmax Hdo Hcls.
  assert (Hretry : errors_Is (do_err result) ErrRetryable = true).
  { unfold classify in Hcls. destruct (do_err result); [|discriminate].
    destruct (errors_Is _ _); [reflexivity|discriminate]. }
  clear Hcls. destruct request as [request|].
  2: { cbn in Hdo. injection Hdo as <-. discriminate Hretry. }
  rewrite Do_unfold in Hdo.
  destruct (req_err (prepareRequestBody client (Some request))) as [e|] eqn:Hprep.
  { injection Hdo as <-. cbn in Hretry.
    rewrite (prepareRequestBody_error_fatal _ _ _ Hprep) in Hretry. discriminate. }
  destruct (prepareRequestBody_keeps_request client request) as [req Hreq].
  rewrite Hreq in Hdo.
  destruct (Z.le_gt_cases 0 (RetryCount client)) as [Hpos|Hneg].
  - split; [exact Hpos|].
    apply (retry_loop_retryable_is_exhausted env client (retry_context client req)
             Hmax fuel req 0 None None
             new_world result); [lia|reflexivity|exact Hdo|exact Hretry].
  - destruct fuel as [|fuel]; [discriminate|]. cbn [retry_loop] in Hdo.
    destruct (Z.leb_spec 0 (RetryCount client)); [lia|].
    injection Hdo as <-. discriminate Hretry.
Qed.

Lemma Do_retryable_failure_is_exhausted_witness :
  exists result,
    Do 3 always_200_env (with_RetryCount (with_RetryStatus zero_client [200]) 1)
      (Some empty_request) = Some result
    /\ Z.of_nat (length (sends (do_world result))) = 2.
Proof.
  destruct (Do 3 always_200_env (with_RetryCount (with_RetryStatus zero_client [200]) 1)
              (Some empty_request)) as [result|] eqn:Hdo;
    [|vm_compute in Hdo; discriminate Hdo].
  exists result. split; [reflexivity|].
  refine (proj2 (Do_retryable_failure_is_exhausted 3 always_200_env _ _ result _ Hdo _)).
  - by_computation.
  - pose proof Hdo as Hc. vm_compute in Hc. injection Hc as <-. reflexivity.
Defined.

(** ** The turns of the loop *)

(** The loop function follows the relation of its turns. *)
Lemma retry_loop_turn fuel env client c request attempt response err w result :
  retry_loop (S fuel) env client c request attempt response err w = Some result ->
  turn_ends env client c request attempt response err w result
  \/ exists request2 response3 err' w',
      turn_goes_on env client c request attempt w request2 response3 err' w'
      /\ retry_loop fuel env client c request2 (wrap64 (attempt + 1)) response3 err' w'
         = Some result.
Proof.
  cbn [retry_loop]. intros Hloop.
  destruct (Z.leb_spec attempt (RetryCount client)) as [Hle|Hgt].
  2: { injection Hloop as <-. left. now constructor. }
  unfold applyRequestDelay, do_sleep in Hloop.
  change (RandomJitterWithContext c (RequestDelay client) (RequestJitter client))
    with (request_delay_call client c) in Hloop.
  change {| sleeps := sleeps w ++ [request_delay_call client c]; sends := sends w;
            regenerations := regenerations w |}
    with (log_sleep (request_delay_call client c) w) in Hloop.
  destruct (sleep_result env (length (sleeps w)) (request_delay_call client c))
    as [e1|] eqn:Hs1; cbn [wrap_sleep_error] in Hloop.
  { injection Hloop as <-. left. now constructor. }
  destruct (resetRequestBody request (log_sleep (request_delay_call client c) w))
    as [[request2 [e2|]] w2] eqn:Hreset.
  { injection Hloop as <-. left. eapply turn_reset_failed; eassumption. }
  destruct (sendRequest env client c request2 w2) as [[response3 [e3|]] w3] eqn:Hsend.
  2: { injection Hloop as <-. left. eapply turn_sent; eauto. }
  destruct (errors_Is (Some e3) ErrRetryable) eqn:He3; cbn [negb] in Hloop.
  2: { injection Hloop as <-. left. eapply turn_sent; eauto. }
  destruct (Z.ltb_spec attempt (RetryCount client)) as [Hlt|Hge].
  - rewrite applyRetryDelay_sleeps in Hloop. cbv zeta in Hloop.
    change (if 0 <? parseRetryDelay env response3
            then RandomJitterWithContext c (parseRetryDelay env response3) float_zero
            else ExponentialBackoffWithContext c (RetryDelay client)
                   (math_Max (RetryMultiplier client) float_one) (RetryJitter client) attempt)
      with (retry_delay_call env client c response3 attempt) in Hloop.
    change {| sleeps := sleeps w3 ++ [retry_delay_call env client c response3 attempt];
              sends := sends w3; regenerations := regenerations w3 |}
      with (log_sleep (retry_delay_call env client c response3 attempt) w3) in Hloop.
    destruct (sleep_result env (length (sleeps w3))
                (retry_delay_call env client c response3 attempt)) as [e4|] eqn:Hs4;
      cbn [wrap_sleep_error] in Hloop.
    + injection Hloop as <-. left. eapply turn_retry_delay_interrupted; eassumption.
    + right. eexists _, _, _, _. split; [|exact Hloop].
      eapply turn_backs_off; eassumption.
  - right. eexists _, _, _, _. split; [|exact Hloop].
    eapply turn_last_attempt; eauto. lia.
Qed.

(** A property of the log that holds when the loop starts and that every
    turn that goes on keeps gives, at the return, whatever the turns that
    end make of it. *)
Lemma retry_loop_rule env client c
    (I : Request -> Z -> option Response -> option error -> World -> Prop)
    (Q : DoResult -> Prop) :
  (forall request attempt response err w result,
      I request attempt response err w ->
      turn_ends env client c request attempt response err w result -> Q result) ->
  (forall request attempt response err w request2 response3 err' w',
      I request attempt response err w ->
      turn_goes_on env client c request attempt w request2 response3 err' w' ->
      I request2 (wrap64 (attempt + 1)) response3 err' w') ->
  forall fuel request attempt response err w result,
    I request attempt response err w ->
    retry_loop fuel env client c request attempt response err w = Some result ->
    Q result.
Proof.
  intros Hends Hgoes fuel. induction fuel as [|fuel IH];
    intros request attempt response err w result HI Hloop; [discriminate|].
  destruct (retry_loop_turn _ _ _ _ _ _ _ _ _ _ Hloop)
    as [Hend|(request2 & response3 & err' & w' & Hgo & Hrec)].
  - eapply Hends; eassumption.
  - eapply IH; [|exact Hrec]. eapply Hgoes; eassumption.
Qed.

(** The same rule for a whole call of [Do] on a request that is not nil:
    [Q] holds of a call that returns before the loop, and the loop starts in
    [I]. *)
Lemma Do_rule env client request
    (I : Request -> Z -> option Response -> option error -> World -> Prop)
    (Q : DoResult -> Prop) :
  (forall e after, req_err (prepareRequestBody client (Some request)) = Some e ->
                   Q (mkDoResult None (Some e) after new_world)) ->
  (forall req, req_err (prepareRequestBody client (Some request)) = None ->
               req_after (prepareRequestBody client (Some request)) = Some req ->
               I req 0 None None new_world) ->
  (forall req, req_after (prepareRequestBody client (Some request)) = Some req ->
     forall request attempt response err w result,
      I request attempt response err w ->
      turn_ends env client (retry_context client req) request attempt response err w result ->
      Q result) ->
  (forall req, req_after (prepareRequestBody client (Some request)) = Some req ->
     forall request attempt response err w request2 response3 err' w',
      I request attempt response err w ->
      turn_goes_on env client (retry_context client req) request attempt w
        request2 response3 err' w' ->
      I request2 (wrap64 (attempt + 1)) response3 err' w') ->
  forall fuel result, Do fuel env client (Some request) = Some result -> Q result.
Proof.
  intros Hprep Hstart Hends Hgoes fuel result Hdo.
  rewrite Do_unfold in Hdo.
  destruct (prepareRequestBody_keeps_request client request) as [req Hreq].
  destruct (req_err (prepareRequestBody client (Some request))) as [e|] eqn:He.
  - injection Hdo as <-. now apply Hprep.
  - rewrite Hreq in Hdo.
    eapply (retry_loop_rule env client (retry_context client req) I Q
              (Hends req Hreq) (Hgoes req Hreq)); [|exact Hdo].
    now apply Hstart.
Qed.

(** What the two steps between the sleeps leave in the log. *)
Lemma after_reset request w request2 err2 w2 :
  resetRequestBody request w = (request2, err2, w2) ->
  sends w2 = sends w
  /\ sleeps w2 = sleeps w
  /\ GetBody request2 = GetBody request
  /\ ReqContentLength request2 = ReqContentLength request
  /\ (forall get, GetBody request = Some get -> ReqBody request2 = (get (regenerations w)).1)
  /\ errors_Is err2 ErrRetryable = false.
Proof.
  unfold resetRequestBody. destruct (GetBody request) as [get|] eqn:Hg.
  - destruct (get (regenerations w)) as [body [e|]] eqn:Hget; intros [= <- <- <-]; cbn;
      (repeat split; try reflexivity; try assumption);
      intros get' [= <-]; now rewrite Hget.
  - intros [= <- <- <-]. repeat split; try assumption; try reflexivity. discriminate.
Qed.

Lemma after_send env client c request w response err w' :
  sendRequest env client c request w = (response, err, w') ->
  sends w' = (sends w ++ [WithContext request (attempt_context client c)])%list
  /\ sleeps w' = sleeps w
  /\ err = exchange_error client
             (transport env (length (sends w)) (WithContext request (attempt_context client c))).
Proof.
  intros Hsend.
  pose proof (sendRequest_sends env client c request w) as (Hs & Hsl & _).
  pose proof (sendRequest_exchange_error env client c request w) as He.
  rewrite Hsend in Hs, Hsl, He. cbn [fst snd] in *. auto.
Qed.

Lemma classify_retryable err :
  errors_Is err ErrRetryable = true -> classify err = RetryableFailure.
Proof. unfold classify. destruct err; [intros ->; reflexivity|discriminate]. Qed.

(** X3. [Do] goes on to another exchange only after a retryable failure:
    every exchange of a call but the last one ended in a retryable failure,
    so a success or a fatal failure of an exchange ends the call. *)
Theorem Do_goes_on_only_after_retryable_failure :
  forall fuel env client request result,
    Do fuel env client (Some request) = Some result ->
    forall i rq,
      sends (do_world result) !! i = Some rq ->
      (S i < length (sends (do_world result)))%nat ->
      classify (exchange_error client (transport env i rq)) = RetryableFailure.
Proof.
  intros fuel env client request result Hdo.
  pose (retried := fun l : list Request =>
          forall i rq, l !! i = Some rq ->
                       classify (exchange_error client (transport env i rq)) = RetryableFailure).
  assert (Hsnoc : forall l rq, retried l ->
            classify (exchange_error client (transport env (length l) rq)) = RetryableFailure ->
            retried (l ++ [rq])%list).
  { intros l rq Hl Hrq i rq' Hi.
    destruct (decide (i < length l)%nat) as [Hlt|Hge].
    - rewrite lookup_app_l in Hi by exact Hlt. eauto.
    - apply lookup_lt_Some in Hi as Hlen. rewrite length_app in Hlen. cbn in Hlen.
      assert (i = length l) as -> by lia.
      rewrite lookup_app_r, Nat.sub_diag in Hi by lia. injection Hi as <-. exact Hrq. }
  assert (Hbut_last : forall l rq, retried l ->
            forall i rq', (l ++ [rq])%list !! i = Some rq' ->
                          (S i < length (l ++ [rq])%list)%nat ->
            classify (exchange_error client (transport env i rq')) = RetryableFailure).
  { intros l rq Hl i rq' Hi Hlt. rewrite length_app in Hlt. cbn in Hlt.
    rewrite lookup_app_l in Hi by lia. eauto. }
  revert fuel result Hdo.
  apply (Do_rule env client request
           (fun _ _ _ _ w => retried (sends w))
           (fun result => forall i rq,
                sends (do_world result) !! i = Some rq ->
                (S i < length (sends (do_world result)))%nat ->
                classify (exchange_error client (transport env i rq)) = RetryableFailure)).
  - intros e after _ i rq Hi. discriminate Hi.
  - intros req _ _ i rq Hi. discriminate Hi.
  - intros req _ request0 attempt response err w result HI Hend.
    inversion Hend; subst; cbn [do_world].
    + intros i rq Hi _. eauto.
    + intros i rq Hi _. eauto.
    + apply after_reset in H1 as (-> & _). intros i rq Hi _. eauto.
    + apply after_reset in H1 as (Hw2 & _). apply after_send in H2 as (-> & _ & _).
      rewrite Hw2. apply Hbut_last. exact HI.
    + apply after_reset in H1 as (Hw2 & _). apply after_send in H2 as (Hw3 & _ & He3).
      cbn [log_sleep sends]. rewrite Hw3, Hw2. intros i rq Hi _. revert i rq Hi.
      apply Hsnoc; [exact HI|]. rewrite <- Hw2, <- He3. now apply classify_retryable.
  - intros req _ request0 attempt response err w request2 response3 err' w' HI Hgo.
    inversion Hgo; subst; cbn [log_sleep sends].
    + apply after_reset in H1 as (Hw2 & _). apply after_send in H2 as (Hw3 & _ & He3).
      rewrite Hw3, Hw2. apply Hsnoc; [exact HI|].
      rewrite <- Hw2, <- He3. now apply classify_retryable.
    + apply after_reset in H1 as (Hw2 & _). apply after_send in H2 as (Hw3 & _ & He3).
      rewrite Hw3, Hw2. apply Hsnoc; [exact HI|].
      rewrite <- Hw2, <- He3. now apply classify_retryable.
Qed.

Lemma Do_goes_on_only_after_retryable_failure_witness :
  exists result rq,
    Do 3 always_200_env (with_RetryCount (with_RetryStatus zero_client [200]) 1)
      (Some empty_request) = Some result
    /\ sends (do_world result) !! 0%nat = Some rq
    /\ classify (exchange_error (with_RetryCount (with_RetryStatus zero_client [200]) 1)
                   (transport always_200_env 0 rq)) = RetryableFailure.
Proof.
  destruct (Do 3 always_200_env (with_RetryCount (with_RetryStatus zero_client [200]) 1)
              (Some empty_request)) as [result|] eqn:Hdo;
    [|vm_compute in Hdo; discriminate Hdo].
  assert (exists rq1 rq2, sends (do_world result) = [rq1; rq2]) as (rq1 & rq2 & Hsends).
  { pose proof Hdo as Hc. vm_compute in Hc. injection Hc as <-. eexists _, _. reflexivity. }
  exists result, rq1. split; [reflexivity|]. split; [now rewrite Hsends|].
  apply (Do_goes_on_only_after_retryable_failure 3 _ _ _ result Hdo 0%nat rq1);
    rewrite Hsends; [reflexivity|cbn; lia].
Defined.

(** ** The body of the request across the attempts *)

Lemma prepareRequestBody_installs client request body :
  ReqBody request = Some body ->
  GetBody request = None ->
  req_err (prepareRequestBody client (Some request)) = None ->
  req_after (prepareRequestBody client (Some request))
  = Some (replace_request_body request (captured (RequestSize client) (pending body))).
Proof.
  intros Hbody Hget Herr.
  destruct (capture_error (RequestSize client) (pending body)) as [e|] eqn:Hc.
  - exfalso. revert Herr. unfold prepareRequestBody, capture_error in *.
    rewrite Hbody, Hget.
    destruct (read_limited _ _) as [[buffer err] rest]; simpl in *.
    rewrite Hc. discriminate.
  - now destruct (prepareRequestBody_captured client request body Hbody Hget Hc) as (? & _).
Qed.

(** X4. Every request that [Do] hands to the base client, at the first
    attempt and at every retry, carries a fresh reader over the same captured
    bytes and the same content length, when the body of the caller's request
    was a plain stream without [GetBody]. *)
Theorem Do_resends_captured_body :
  forall fuel env client request body result,
    ReqBody request = Some body ->
    GetBody request = None ->
    Do fuel env client (Some request) = Some result ->
    let buffer := captured (RequestSize client) (pending body) in
    Forall (fun rq => ReqBody rq = Some (NopCloser_NewReader buffer)
                      /\ ReqContentLength rq = Z.of_nat (length buffer))
      (sends (do_world result)).
Proof.
  intros fuel env client request body result Hbody Hget Hdo buffer.
  pose (sent := fun rq => ReqBody rq = Some (NopCloser_NewReader buffer)
                          /\ ReqContentLength rq = Z.of_nat (length buffer)).
  pose (installed := fun rq =>
          (exists get, GetBody rq = Some get
                       /\ forall n : nat, get n = (Some (NopCloser_NewReader buffer), None))
          /\ ReqContentLength rq = Z.of_nat (length buffer)).
  assert (Hstep : forall env client c rq w rq2 w2 response3 err3 w3,
             installed rq -> Forall sent (sends w) ->
             resetRequestBody rq (log_sleep (request_delay_call client c) w)
             = (rq2, None, w2) ->
             sendRequest env client c rq2 w2 = (response3, err3, w3) ->
             installed rq2 /\ Forall sent (sends w3)).
  { intros env0 client0 c rq w rq2 w2 response3 err3 w3 [(get & Hg & Hfresh) Hlen] Hall
      Hreset Hsend.
    apply after_reset in Hreset as (Hw2 & _ & Hg2 & Hl2 & Hb2 & _).
    apply after_send in Hsend as (Hw3 & _).
    split.
    - split; [exists get; split; [congruence|exact Hfresh]|congruence].
    - rewrite Hw3, Hw2. apply Forall_app. split; [exact Hall|].
      apply Forall_singleton. split; cbn.
      + rewrite (Hb2 get Hg), Hfresh. reflexivity.
      + congruence. }
  revert fuel result Hdo.
  apply (Do_rule env client request
           (fun rq _ _ _ w => installed rq /\ Forall sent (sends w))
           (fun result => Forall sent (sends (do_world result)))).
  - intros e after _. constructor.
  - intros req Herr Hreq. split; [|constructor].
    rewrite (prepareRequestBody_installs client request body Hbody Hget Herr) in Hreq.
    injection Hreq as <-. split; [|reflexivity].
    eexists. split; [reflexivity|]. reflexivity.
  - intros req _ rq attempt response err w result0 [Hin Hall] Hend.
    inversion Hend; subst; cbn [do_world log_sleep sends]; try assumption.
    + apply after_reset in H1 as (-> & _). exact Hall.
    + now destruct (Hstep _ _ _ _ _ _ _ _ _ _ Hin Hall H1 H2).
    + now destruct (Hstep _ _ _ _ _ _ _ _ _ _ Hin Hall H1 H2).
  - intros req _ rq attempt response err w request2 response3 err' w' [Hin Hall] Hgo.
    inversion Hgo; subst; cbn [log_sleep sends];
      now destruct (Hstep _ _ _ _ _ _ _ _ _ _ Hin Hall H1 H2).
Qed.

Lemma Do_resends_captured_body_witness :
  exists result,
    Do 3 always_200_env (with_RetryCount (with_RetryStatus zero_client [200]) 1)
      (Some (request_with_stream (NopCloser_NewReader xyz))) = Some result
    /\ Forall (fun rq => ReqBody rq = Some (NopCloser_NewReader xyz)
                         /\ ReqContentLength rq = 3)
         (sends (do_world result))
    /\ length (sends (do_world result)) = 2%nat.
Proof.
  destruct (Do 3 always_200_env (with_RetryCount (with_RetryStatus zero_client [200]) 1)
              (Some (request_with_stream (NopCloser_NewReader xyz)))) as [result|] eqn:Hdo;
    [|vm_compute in Hdo; discriminate Hdo].
  exists result. split; [reflexivity|]. split.
  - exact (Do_resends_captured_body 3 always_200_env
             (with_RetryCount (with_RetryStatus zero_client [200]) 1)
             (request_with_stream (NopCloser_NewReader xyz)) (NopCloser_NewReader xyz)
             result eq_refl eq_refl Hdo).
  - pose proof Hdo as Hc. vm_compute in Hc. injection Hc as <-. reflexivity.
Defined.

(** ** Contexts, pacing and interrupted sleeps *)

Lemma prepareRequestBody_ctx client request req :
  req_after (prepareRequestBody client (Some request)) = Some req ->
  retry_context client req = retry_context client request.
Proof.
  intros Hreq. assert (ctx req = ctx request) as Hctx.
  { revert Hreq. unfold prepareRequestBody.
    destruct (ReqBody request) as [body|], (GetBody request) as [get|];
      try (now intros [= <-]).
    destruct (read_limited _ _) as [[buffer [e|]] rest]; [now intros [= <-]|].
    destruct (io_Copy_Discard rest) as [[n [e|]] rest']; [now intros [= <-]|].
    destruct (_ && _); now intros [= <-]. }
  unfold retry_context, Request_Context. now rewrite Hctx.
Qed.

Lemma sleep_context_retry_delay env client c response attempt :
  sleep_context (retry_delay_call env client c response attempt) = c.
Proof. unfold retry_delay_call. destruct (0 <? _); reflexivity. Qed.

(** X5. Every exchange of a call of [Do] is made under the context of the
    attempt, which is the context of the whole call under the request
    timeout, and every sleep watches the context of the whole call, never the
    one of an attempt. Each exchange comes after a sleep of its own: there
    are at least as many sleeps as exchanges, and at most two per exchange
    plus one. *)
Theorem Do_contexts_and_pacing :
  forall fuel env client request result,
    Do fuel env client (Some request) = Some result ->
    let outer := retry_context client request in
    Forall (fun rq => ctx rq = Some (attempt_context client outer)) (sends (do_world result))
    /\ Forall (fun call => sleep_context call = outer) (sleeps (do_world result))
    /\ (length (sends (do_world result)) <= length (sleeps (do_world result))
        <= 2 * length (sends (do_world result)) + 1)%nat.
Proof.
  intros fuel env client request result Hdo outer.
  pose (under := fun w : World =>
          Forall (fun rq => ctx rq = Some (attempt_context client outer)) (sends w)
          /\ Forall (fun call => sleep_context call = outer) (sleeps w)).
  assert (Hsleep : forall call w, sleep_context call = outer -> under w ->
                                  under (log_sleep call w)).
  { intros call w Hcall [Hs Hl]. split; [exact Hs|]. cbn.
    apply Forall_app. split; [exact Hl|]. now apply Forall_singleton. }
  assert (Hstep : forall rq w rq2 err2 w2,
             under w -> resetRequestBody rq w = (rq2, err2, w2) ->
             under w2 /\ length (sends w2) = length (sends w)
             /\ length (sleeps w2) = length (sleeps w)).
  { intros rq w rq2 err2 w2 [Hs Hl] Hreset.
    apply after_reset in Hreset as (Hw2 & Hl2 & _). unfold under.
    rewrite Hw2, Hl2. auto. }
  assert (Hsent : forall rq w response err w',
             under w -> sendRequest env client outer rq w = (response, err, w') ->
             under w' /\ length (sends w') = S (length (sends w))
             /\ length (sleeps w') = length (sleeps w)).
  { intros rq w response err w' [Hs Hl] Hsend.
    apply after_send in Hsend as (Hw' & Hl' & _). unfold under.
    rewrite Hw', Hl', length_app. cbn [length]. split; [split; [|exact Hl]|lia].
    apply Forall_app. split; [exact Hs|]. now apply Forall_singleton. }
  enough (Hall : forall fuel result,
             Do fuel env client (Some request) = Some result ->
             under (do_world result)
             /\ (length (sends (do_world result)) <= length (sleeps (do_world result))
                 <= 2 * length (sends (do_world result)) + 1)%nat)
    by (destruct (Hall fuel result Hdo) as [[? ?] ?]; auto).
  clear fuel result Hdo.
  apply (Do_rule env client request
           (fun _ _ _ _ w =>
              under w /\ (length (sends w) <= length (sleeps w) <= 2 * length (sends w))%nat)
           (fun result =>
              under (do_world result)
              /\ (length (sends (do_world result)) <= length (sleeps (do_world result))
                  <= 2 * length (sends (do_world result)) + 1)%nat)).
  - intros e after _. split; [split; constructor|cbn; lia].
  - intros req _ _. split; [split; constructor|cbn; lia].
  - intros req Hreq rq attempt response err w result0 [Hu Hn] Hend.
    rewrite (prepareRequestBody_ctx _ _ _ Hreq) in Hend. fold outer in Hend.
    assert (Hu1 : under (log_sleep (request_delay_call client outer) w))
      by (apply Hsleep; [reflexivity|exact Hu]).
    inversion Hend; subst; cbn [do_world].
    + split; [exact Hu|lia].
    + split; [exact Hu1|]. cbn. rewrite length_app. cbn. lia.
    + destruct (Hstep _ _ _ _ _ Hu1 H1) as (Hu2 & Hs2 & Hl2).
      split; [exact Hu2|]. rewrite Hs2, Hl2. cbn. rewrite length_app. cbn. lia.
    + destruct (Hstep _ _ _ _ _ Hu1 H1) as (Hu2 & Hs2 & Hl2).
      destruct (Hsent _ _ _ _ _ Hu2 H2) as (Hu3 & Hs3 & Hl3).
      split; [exact Hu3|]. rewrite Hs3, Hl3, Hs2, Hl2. cbn. rewrite length_app. cbn. lia.
    + destruct (Hstep _ _ _ _ _ Hu1 H1) as (Hu2 & Hs2 & Hl2).
      destruct (Hsent _ _ _ _ _ Hu2 H2) as (Hu3 & Hs3 & Hl3).
      split; [apply Hsleep; [apply sleep_context_retry_delay|exact Hu3]|].
      cbn. rewrite !length_app, Hs3, Hl3, Hs2, Hl2. cbn. rewrite length_app. cbn. lia.
  - intros req Hreq rq attempt response err w request2 response3 err' w' [Hu Hn] Hgo.
    rewrite (prepareRequestBody_ctx _ _ _ Hreq) in Hgo. fold outer in Hgo.
    assert (Hu1 : under (log_sleep (request_delay_call client outer) w))
      by (apply Hsleep; [reflexivity|exact Hu]).
    inversion Hgo; subst.
    + destruct (Hstep _ _ _ _ _ Hu1 H1) as (Hu2 & Hs2 & Hl2).
      destruct (Hsent _ _ _ _ _ Hu2 H2) as (Hu3 & Hs3 & Hl3).
      split; [apply Hsleep; [apply sleep_context_retry_delay|exact Hu3]|].
      cbn. rewrite !length_app, Hs3, Hl3, Hs2, Hl2. cbn. rewrite length_app. cbn. lia.
    + destruct (Hstep _ _ _ _ _ Hu1 H1) as (Hu2 & Hs2 & Hl2).
      destruct (Hsent _ _ _ _ _ Hu2 H2) as (Hu3 & Hs3 & Hl3).
      split; [exact Hu3|]. rewrite Hs3, Hl3, Hs2, Hl2. cbn. rewrite length_app. cbn. lia.
Qed.

Lemma Do_contexts_and_pacing_witness :
  exists result,
    Do 3 always_200_env (with_RetryCount (with_RetryStatus zero_client [200]) 1)
      (Some empty_request) = Some result
    /\ Forall (fun rq => ctx rq = Some Background) (sends (do_world result))
    /\ Forall (fun call => sleep_context call = Background) (sleeps (do_world result))
    /\ (length (sends (do_world result)) <= length (sleeps (do_world result))
        <= 2 * length (sends (do_world result)) + 1)%nat.
Proof.
  destruct (Do 3 always_200_env (with_RetryCount (with_RetryStatus zero_client [200]) 1)
              (Some empty_request)) as [result|] eqn:Hdo;
    [|vm_compute in Hdo; discriminate Hdo].
  exists result. split; [reflexivity|].
  exact (Do_contexts_and_pacing 3 always_200_env
           (with_RetryCount (with_RetryStatus zero_client [200]) 1) empty_request result Hdo).
Defined.

(** X6. A sleep that the context interrupts ends the call at once: it is
    the last call of the [sleep] package that [Do] makes, and [Do] returns a
    fatal failure that wraps the error of the sleep. *)
Theorem Do_interrupted_sleep_is_fatal :
  forall fuel env client request result,
    Do fuel env client (Some request) = Some result ->
    forall i call e,
      sleeps (do_world result) !! i = Some call ->
      sleep_result env i call = Some e ->
      S i = length (sleeps (do_world result))
      /\ do_err result = Some (Errorf ErrNonRetryable EmptyString (Some e))
      /\ classify (do_err result) = FatalFailure.
Proof.
  intros fuel env client request result Hdo.
  pose (quiet := fun l : list SleepCall =>
          forall i call, l !! i = Some call -> sleep_result env i call = None).
  assert (Hok : forall l call, quiet l -> sleep_result env (length l) call = None ->
                               quiet (l ++ [call])%list).
  { intros l call Hl Hcall i call' Hi.
    destruct (decide (i < length l)%nat) as [Hlt|Hge].
    - rewrite lookup_app_l in Hi by exact Hlt. eauto.
    - apply lookup_lt_Some in Hi as Hlen. rewrite length_app in Hlen. cbn in Hlen.
      assert (i = length l) as -> by lia.
      rewrite lookup_app_r, Nat.sub_diag in Hi by lia. injection Hi as <-. exact Hcall. }
  assert (Hbad : forall l call e0, quiet l -> sleep_result env (length l) call = Some e0 ->
             forall i call' e, (l ++ [call])%list !! i = Some call' ->
                               sleep_result env i call' = Some e ->
                               S i = length (l ++ [call])%list /\ e = e0).
  { intros l call e0 Hl Hcall i call' e Hi He.
    destruct (decide (i < length l)%nat) as [Hlt|Hge].
    - rewrite lookup_app_l in Hi by exact Hlt. rewrite (Hl _ _ Hi) in He. discriminate.
    - apply lookup_lt_Some in Hi as Hlen. rewrite length_app in Hlen |- *. cbn in Hlen |- *.
      assert (i = length l) as -> by lia.
      rewrite lookup_app_r, Nat.sub_diag in Hi by lia. injection Hi as <-.
      split; [lia|congruence]. }
  assert (Hnone : forall l (P : Prop) i call e, quiet l -> l !! i = Some call ->
                    sleep_result env i call = Some e -> P).
  { intros l P i call e Hl Hi He. rewrite (Hl _ _ Hi) in He. discriminate. }
  revert fuel result Hdo.
  apply (Do_rule env client request
           (fun _ _ _ _ w => quiet (sleeps w))
           (fun result => forall i call e,
                sleeps (do_world result) !! i = Some call ->
                sleep_result env i call = Some e ->
                S i = length (sleeps (do_world result))
                /\ do_err result = Some (Errorf ErrNonRetryable EmptyString (Some e))
                /\ classify (do_err result) = FatalFailure)).
  - intros e after _ i call e' Hi. discriminate Hi.
  - intros req _ _ i call Hi. discriminate Hi.
  - intros req _ rq attempt response err w result0 HI Hend.
    inversion Hend; subst; cbn [do_world do_err]; intros i call e' Hi He.
    + eapply Hnone; eassumption.
    + destruct (Hbad _ _ _ HI H0 _ _ _ Hi He) as [Hlen ->]. auto.
    + apply after_reset in H1 as (_ & Hl2 & _). rewrite Hl2 in Hi.
      eapply (Hnone _ _ _ _ _ (Hok _ _ HI H0)); eassumption.
    + apply after_reset in H1 as (_ & Hl2 & _). apply after_send in H2 as (_ & Hl3 & _).
      rewrite Hl3, Hl2 in Hi.
      eapply (Hnone _ _ _ _ _ (Hok _ _ HI H0)); eassumption.
    + apply after_reset in H1 as (_ & Hl2 & _). apply after_send in H2 as (_ & Hl3 & _).
      assert (Hq3 : quiet (sleeps w3)) by (rewrite Hl3, Hl2; exact (Hok _ _ HI H0)).
      destruct (Hbad _ _ _ Hq3 H4 _ _ _ Hi He) as [Hlen ->]. auto.
  - intros req _ rq attempt response err w request2 response3 err' w' HI Hgo.
    inversion Hgo; subst.
    + apply after_reset in H1 as (_ & Hl2 & _). apply after_send in H2 as (_ & Hl3 & _).
      apply Hok; [|exact H4]. rewrite Hl3, Hl2. exact (Hok _ _ HI H0).
    + apply after_reset in H1 as (_ & Hl2 & _). apply after_send in H2 as (_ & Hl3 & _).
      rewrite Hl3, Hl2. exact (Hok _ _ HI H0).
Qed.

(** The cancelled context of the tests. *)
Lemma Do_interrupted_sleep_is_fatal_witness :
  exists result,
    Do 2 cancelled_env zero_client (Some empty_request) = Some result
    /\ length (sleeps (do_world result)) = 1%nat
    /\ do_err result = Some (Errorf ErrNonRetryable EmptyString (Some context_Canceled)).
Proof.
  destruct (Do 2 cancelled_env zero_client (Some empty_request)) as [result|] eqn:Hdo;
    [|vm_compute in Hdo; discriminate Hdo].
  assert (exists call, sleeps (do_world result) = [call]) as [call Hsleeps].
  { pose proof Hdo as Hc. vm_compute in Hc. injection Hc as <-. eexists. reflexivity. }
  exists result. split; [reflexivity|].
  destruct (Do_interrupted_sleep_is_fatal 2 cancelled_env zero_client empty_request result
              Hdo 0%nat call context_Canceled) as (Hlen & Herr & _).
  - now rewrite Hsleeps.
  - reflexivity.
  - split; [now rewrite <- Hlen|exact Herr].
Defined.

(** ** Calls that end before the first exchange *)

(** X7. When the first sleep is interrupted, for instance because the
    context of the caller is cancelled already, [Do] returns a nil response
    and a fatal failure that wraps the error of the sleep, and no exchange
    is made. *)
Theorem Do_interrupted_before_first_attempt :
  forall fuel env client request e,
    0 <= RetryCount client ->
    req_err (prepareRequestBody client (Some request)) = None ->
    sleep_result env 0 (request_delay_call client (retry_context client request)) = Some e ->
    exists result,
      Do (S fuel) env client (Some request) = Some result
      /\ do_response result = None
      /\ do_err result = Some (Errorf ErrNonRetryable EmptyString (Some e))
      /\ sends (do_world result) = []
      /\ regenerations (do_world result) = 0%nat.
Proof.
  intros fuel env client request e Hpos Hprep Hsleep.
  rewrite Do_unfold, Hprep.
  destruct (prepareRequestBody_keeps_request client request) as [req Hreq].
  rewrite Hreq, (prepareRequestBody_ctx _ _ _ Hreq).
  cbn [retry_loop]. destruct (Z.leb_spec 0 (RetryCount client)); [|lia].
  unfold applyRequestDelay, do_sleep. cbn [new_world sleeps length].
  unfold request_delay_call in Hsleep. rewrite Hsleep. cbn [wrap_sleep_error].
  eexists. split; [reflexivity|]. auto.
Qed.

Lemma Do_interrupted_before_first_attempt_witness :
  exists result,
    Do 1 cancelled_env zero_client (Some empty_request) = Some result
    /\ do_response result = None
    /\ do_err result = Some (Errorf ErrNonRetryable EmptyString (Some context_Canceled))
    /\ sends (do_world result) = []
    /\ regenerations (do_world result) = 0%nat.
Proof.
  exact (Do_interrupted_before_first_attempt 0 cancelled_env zero_client empty_request
           context_Canceled ltac:(by_computation) eq_refl eq_refl).
Defined.

(** X8. When the [GetBody] of the caller fails at the first attempt, [Do]
    returns a nil response and a fatal failure that wraps the error, no
    exchange is made, and the body of the request is whatever [GetBody]
    returned with the error. *)
Theorem Do_regeneration_failure :
  forall fuel env client request get body e,
    0 <= RetryCount client ->
    GetBody request = Some get ->
    get 0%nat = (body, Some e) ->
    sleep_result env 0 (request_delay_call client (retry_context client request)) = None ->
    exists result request',
      Do (S fuel) env client (Some request) = Some result
      /\ do_response result = None
      /\ do_err result
         = Some (Errorf ErrNonRetryable "unable to reset request body" (Some e))
      /\ classify (do_err result) = FatalFailure
      /\ sends (do_world result) = []
      /\ do_request result = Some request'
      /\ ReqBody request' = body.
Proof.
  intros fuel env client request get body e Hpos Hget Hfail Hsleep.
  rewrite Do_unfold.
  rewrite (prepareRequestBody_noop client request) by (right; congruence).
  cbn [req_err req_after retry_loop].
  destruct (Z.leb_spec 0 (RetryCount client)); [|lia].
  unfold applyRequestDelay, do_sleep. cbn [new_world sleeps length].
  unfold request_delay_call in Hsleep. rewrite Hsleep. cbn [wrap_sleep_error].
  unfold resetRequestBody. rewrite Hget. cbn [regenerations new_world]. rewrite Hfail.
  eexists _, _. split; [reflexivity|]. cbn. auto 10.
Qed.

(** The request of the tests whose [GetBody] returns [io.EOF]. *)
Lemma Do_regeneration_failure_witness :
  exists result,
    Do 1 quiet_env zero_client (Some request_with_failing_GetBody) = Some result
    /\ do_response result = None
    /\ do_err result
       = Some (Errorf ErrNonRetryable "unable to reset request body" (Some io_EOF))
    /\ sends (do_world result) = [].
Proof.
  destruct (Do_regeneration_failure 0 quiet_env zero_client request_with_failing_GetBody
              _ None io_EOF ltac:(by_computation) eq_refl eq_refl eq_refl)
    as (result & request' & Hdo & Hr & He & _ & Hs & _).
  exists result. auto.
Defined.

(** ** More on prepareRequestBody *)

(** X9. Once a call of [prepareRequestBody] has captured the body, the
    request carries [GetBody], so every later call on the same request, with
    any ceiling, is accepted without a look at the body, also when the first
    call failed because the size was exceeded. *)
Theorem prepareRequestBody_twice :
  forall client client' request body,
    ReqBody request = Some body ->
    GetBody request = None ->
    capture_error (RequestSize client) (pending body) = None ->
    exists request',
      req_after (prepareRequestBody client (Some request)) = Some request'
      /\ prepareRequestBody client' (Some request')
         = {| req_after := Some request'; req_original_after := None; req_err := None |}.
Proof.
  intros client client' request body Hbody Hget Hc.
  destruct (prepareRequestBody_captured client request body Hbody Hget Hc) as (Hreq & _).
  eexists. split; [exact Hreq|].
  apply prepareRequestBody_noop. right. discriminate.
Qed.

(** The scenario of the tests: the body ["xyz"] under a ceiling of one byte
    is rejected once, and accepted at the second call. *)
Lemma prepareRequestBody_twice_witness :
  let client := with_RequestSize zero_client 1 in
  exists request',
    req_err (prepareRequestBody client
               (Some (request_with_stream (NopCloser_NewReader xyz))))
    = Some (Errorf ErrNonRetryable "request size exceeded (3)" None)
    /\ req_after (prepareRequestBody client
                    (Some (request_with_stream (NopCloser_NewReader xyz)))) = Some request'
    /\ req_err (prepareRequestBody client (Some request')) = None.
Proof.
  intros client.
  destruct (prepareRequestBody_twice client client
              (request_with_stream (NopCloser_NewReader xyz)) (NopCloser_NewReader xyz)
              eq_refl eq_refl eq_refl) as (request' & Hafter & Hsecond).
  exists request'. split; [reflexivity|]. split; [exact Hafter|]. now rewrite Hsecond.
Defined.

(** X10. When the capture read of the body of the request fails,
    [prepareRequestBody] returns a fatal failure that wraps the read error,
    installs no [GetBody] and does not close the stream, and [Do] returns
    this error with a nil response before any sleep or exchange. *)
Theorem prepareRequestBody_read_error :
  forall client request body e,
    ReqBody request = Some body ->
    GetBody request = None ->
    capture_error (RequestSize client) (pending body) = Some e ->
    let p := prepareRequestBody client (Some request) in
    req_err p = Some (Errorf ErrNonRetryable "unable to read request body" (Some e))
    /\ (exists request' original,
           req_after p = Some request'
           /\ GetBody request' = None
           /\ ReqBody request' = Some original
           /\ ReqContentLength request' = ReqContentLength request
           /\ closes original = closes body)
    /\ (forall fuel env, exists result,
           Do fuel env client (Some request) = Some result
           /\ do_response result = None
           /\ do_err result = req_err p
           /\ do_world result = new_world).
Proof.
  intros client request body e Hbody Hget Hc p.
  assert (Herr : req_err p
                 = Some (Errorf ErrNonRetryable "unable to read request body" (Some e))
                 /\ exists request' original,
                     req_after p = Some request'
                     /\ GetBody request' = None
                     /\ ReqBody request' = Some original
                     /\ ReqContentLength request' = ReqContentLength request
                     /\ closes original = closes body).
  { subst p. unfold prepareRequestBody, capture_error in *. rewrite Hbody, Hget.
    destruct (read_limited _ _) as [[buffer err] rest]. cbn [fst snd] in Hc. subst err.
    cbn. split; [reflexivity|]. eexists _, _. repeat split. }
  destruct Herr as [Herr Hafter]. split; [exact Herr|]. split; [exact Hafter|].
  intros fuel env. rewrite Do_unfold. fold p. rewrite Herr.
  eexists. split; [reflexivity|]. auto.
Qed.

(** The [MockReader] of the tests. *)
Lemma prepareRequestBody_read_error_witness :
  req_err (prepareRequestBody zero_client (Some (request_with_stream MockReader)))
  = Some (Errorf ErrNonRetryable "unable to read request body" (Some io_ErrUnexpectedEOF)).
Proof.
  exact (proj1 (prepareRequestBody_read_error zero_client (request_with_stream MockReader)
                  MockReader io_ErrUnexpectedEOF eq_refl eq_refl eq_refl)).
Defined.

(** ** The size of what is kept in memory *)

Lemma io_ReadAll_LimitReader_prefix (s : stream) :
  forall n, 0 <= n ->
    (io_ReadAll_LimitReader n s).1.1 = take (Z.to_nat n) (leading_bytes s).
Proof.
  unfold leading_bytes.
  induction s as [|[b|e|] s IH]; intros n Hn; cbn [io_ReadAll_LimitReader io_ReadAll];
    destruct (Z.leb_spec n 0) as [H0|Hpos]; cbn [fst snd];
    try (replace n with 0 by lia; reflexivity); try (now rewrite take_nil).
  specialize (IH (n - 1) ltac:(lia)).
  destruct (io_ReadAll_LimitReader (n - 1) s) as [[bs err] rest].
  destruct (io_ReadAll s) as [[bs' err'] rest']. cbn [fst snd] in *.
  replace (Z.to_nat n) with (S (Z.to_nat (n - 1))) by lia. cbn. now rewrite IH.
Qed.

(** X11. What [prepareResponseBody] and [prepareRequestBody] keep in memory
    is a prefix of the bytes the stream delivers: the first [N] of them under
    a positive ceiling [N], so never more than [N] bytes, and all of them
    without a ceiling. The response reads back as this prefix and
    [ContentLength] is its length, also when the call reports that the size
    was exceeded. *)
Theorem captured_is_bounded_prefix :
  forall ceiling s,
    (0 < ceiling ->
     captured ceiling s = take (Z.to_nat ceiling) (leading_bytes s)
     /\ Z.of_nat (length (captured ceiling s)) <= ceiling)
    /\ (ceiling <= 0 -> captured ceiling s = leading_bytes s)
    /\ (forall client response body,
           ceiling = ResponseSize client -> s = pending body ->
           capture_error ceiling s = None ->
           Body (resp_after (prepareResponseBody client response body))
           = Some (NopCloser_NewReader (captured ceiling s))
           /\ ContentLength (resp_after (prepareResponseBody client response body))
              = Z.of_nat (length (captured ceiling s)))
    /\ (forall client request body,
           ceiling = RequestSize client -> s = pending body ->
           ReqBody request = Some body -> GetBody request = None ->
           capture_error ceiling s = None ->
           req_after (prepareRequestBody client (Some request))
           = Some (replace_request_body request (captured ceiling s))).
Proof.
  intros ceiling s. split; [|split; [|split]].
  - intros Hpos. split; [|now apply captured_bound].
    unfold captured, read_limited. destruct (Z.ltb_spec 0 ceiling); [|lia].
    apply io_ReadAll_LimitReader_prefix. lia.
  - intros Hle. unfold captured, read_limited, leading_bytes.
    destruct (Z.ltb_spec 0 ceiling); [lia|reflexivity].
  - intros client response body -> -> Hc.
    assert (resp_after (prepareResponseBody client response body)
            = replace_response_body response (captured (ResponseSize client) (pending body)))
      as ->; [|split; reflexivity].
    destruct (drain_error (ResponseSize client) (pending body)) as [e|] eqn:Hd.
    + now destruct (prepareResponseBody_drain_error client response body e Hc Hd)
        as (_ & ? & _).
    + now destruct (prepareResponseBody_read client response body Hc Hd) as (_ & ? & _).
  - intros client request body -> -> Hbody Hget Hc.
    now destruct (prepareRequestBody_captured client request body Hbody Hget Hc) as (? & _).
Qed.

(** The scenario of the tests: one byte of ["xyz"] is kept. *)
Lemma captured_is_bounded_prefix_witness :
  captured 1 (map Data xyz) = ["x"%byte]
  /\ Body (resp_after (prepareResponseBody (with_ResponseSize zero_client 1)
                         (response_with_status 0) (NopCloser_NewReader xyz)))
     = Some (NopCloser_NewReader ["x"%byte]).
Proof.
  pose proof (captured_is_bounded_prefix 1 (map Data xyz)) as (Hpre & _ & Hresp & _).
  split.
  - destruct (Hpre eq_refl) as [-> _]. reflexivity.
  - exact (proj1 (Hresp (with_ResponseSize zero_client 1) (response_with_status 0)
                    (NopCloser_NewReader xyz) eq_refl eq_refl eq_refl)).
Defined.

(** ** The multiplier of the backoff *)

Lemma SFltb_one_antisym (m : positive) (e : Z) :
  SFltb float_one (S754_finite false m e) = true ->
  SFltb (S754_finite false m e) float_one = false.
Proof.
  cbv [SFltb float_one SFcompare].
  rewrite (Z.compare_antisym e (-52)).
  destruct (e ?= -52); cbv [CompOpp]; try reflexivity; try discriminate.
  pose proof (Pos.compare_cont_antisym m 4503599627370496 Eq) as Ha.
  simpl (CompOpp Eq) in Ha. rewrite <- Ha.
  destruct (Pos.compare_cont Eq m 4503599627370496); cbv [CompOpp];
    try reflexivity; discriminate.
Qed.

(** X12. The multiplier that [applyRetryDelay] hands to the exponential
    backoff is never below [1.0]: a multiplier above [1.0] is passed as it
    is, and everything else that is a number becomes [1.0]. *)
Theorem retry_multiplier_never_below_one :
  forall env client c response attempt w,
    parseRetryDelay env response <= 0 ->
    exists multiplier,
      sleeps (applyRetryDelay env client c response attempt w).2
      = (sleeps w ++ [ExponentialBackoffWithContext c (RetryDelay client) multiplier
                        (RetryJitter client) attempt])%list
      /\ SFltb multiplier float_one = false
      /\ (SFltb float_one (RetryMultiplier client) = true ->
          multiplier = RetryMultiplier client)
      /\ (SFleb (RetryMultiplier client) float_one = true -> multiplier = float_one).
Proof.
  intros env client c response attempt w Hdelay.
  exists (math_Max (RetryMultiplier client) float_one).
  split; [|split; [|split]].
  - rewrite applyRetryDelay_sleeps. cbn [snd sleeps].
    destruct (Z.ltb_spec 0 (parseRetryDelay env response)); [lia|reflexivity].
  - rewrite math_Max_one_cases.
    destruct (RetryMultiplier client) as [s|s| |s m e]; try reflexivity.
    + destruct s; reflexivity.
    + destruct s; [reflexivity|].
      destruct (SFltb float_one (S754_finite false m e)) eqn:H; [|reflexivity].
      now apply SFltb_one_antisym.
  - rewrite math_Max_one_cases.
    destruct (RetryMultiplier client) as [s|s| |s m e]; try discriminate.
    + destruct s; [discriminate|reflexivity].
    + destruct s; [discriminate|]. now intros ->.
  - rewrite math_Max_one_cases.
    destruct (RetryMultiplier client) as [s|s| |s m e]; try reflexivity; try discriminate.
    + destruct s; [reflexivity|discriminate].
    + destruct s; [reflexivity|].
      cbv [SFleb SFltb float_one SFcompare].
      rewrite (Z.compare_antisym e (-52)).
      destruct (e ?= -52); cbv [CompOpp]; try reflexivity; try discriminate.
      pose proof (Pos.compare_cont_antisym m 4503599627370496 Eq) as Ha.
      simpl (CompOpp Eq) in Ha. rewrite <- Ha.
      destruct (Pos.compare_cont Eq m 4503599627370496); cbv [CompOpp];
        try reflexivity; discriminate.
Qed.

(** The multipliers of the tests, 0.5 and 2.0. *)
Lemma retry_multiplier_never_below_one_witness :
  let with_multiplier m :=
    {| RetryStatus := []; RetryCount := 1; RetryDelay := time_Millisecond;
       RetryMultiplier := m; RetryJitter := float_zero;
       RetryTimeout := 0; RequestDelay := 0; RequestJitter := float_zero;
       RequestTimeout := 0; RequestSize := 0; ResponseSize := 0 |} in
  let two := S754_finite false 4503599627370496 (-51) in
  sleeps (applyRetryDelay quiet_env (with_multiplier float_half) Background None 0
            new_world).2
  = [ExponentialBackoffWithContext Background time_Millisecond float_one float_zero 0]
  /\ sleeps (applyRetryDelay quiet_env (with_multiplier two) Background None 0 new_world).2
     = [ExponentialBackoffWithContext Background time_Millisecond two float_zero 0].
Proof.
  intros with_multiplier two. split.
  - destruct (retry_multiplier_never_below_one quiet_env (with_multiplier float_half)
                Background None 0 new_world ltac:(by_computation))
      as (m & -> & _ & _ & Hone).
    now rewrite (Hone eq_refl).
  - destruct (retry_multiplier_never_below_one quiet_env (with_multiplier two)
                Background None 0 new_world ltac:(by_computation))
      as (m & -> & _ & Hkeep & _).
    now rewrite (Hkeep eq_refl).
Defined.

(** ** The default client *)

Lemma DefaultStatus_range (code : Z) :
  retryable_status DefaultStatus code = true -> 400 <= code <= 599.
Proof.
  unfold DefaultStatus. cbn [retryable_status].
  repeat match goal with
         | |- (if ?a =? code then _ else _) = true -> _ =>
             destruct (Z.eqb_spec a code) as [<-|_]; [intros _; by_computation|]
         end.
  discriminate.
Qed.

(** X13. With the default client, a status below 400 is never retried: a
    response with such a status whose body is read to its end within the
    two gibibytes is a success. A call of [Do] makes at most 21 exchanges,
    and the multiplier 1.5 goes to the backoff as it is. *)
Theorem DefaultClient_policy :
  (forall response bs closed,
      StatusCode response < 400 ->
      Z.of_nat (length bs) <= ResponseSize DefaultClient ->
      resp_err (prepareResponseBody DefaultClient response
                  {| pending := map Data bs; closes := closed |}) = None)
  /\ (forall code, retryable_status (RetryStatus DefaultClient) code = true ->
                   400 <= code <= 599)
  /\ (forall env request, exists result,
         Do (enough_fuel DefaultClient) env DefaultClient request = Some result
         /\ (length (sends (do_world result)) <= 21)%nat)
  /\ math_Max (RetryMultiplier DefaultClient) float_one = float_one_and_a_half.
Proof.
  split; [|split; [|split]].
  - intros response bs closed Hstatus Hlen.
    change (ResponseSize DefaultClient) with 2147483648 in Hlen.
    assert (Hread : read_limited (ResponseSize DefaultClient) (map Data bs)
                    = (bs, None, [])).
    { unfold read_limited. change (0 <? ResponseSize DefaultClient) with true. cbv iota.
      rewrite io_ReadAll_LimitReader_data by by_computation.
      change (ResponseSize DefaultClient) with 2147483648.
      rewrite take_ge, drop_ge by lia. reflexivity. }
    assert (Hc : capture_error (ResponseSize DefaultClient) (map Data bs) = None)
      by (unfold capture_error; now rewrite Hread).
    assert (Hd : drain_error (ResponseSize DefaultClient) (map Data bs) = None)
      by (unfold drain_error; now rewrite Hread).
    destruct (prepareResponseBody_read DefaultClient response
                {| pending := map Data bs; closes := closed |} Hc Hd) as (-> & _).
    destruct (retryable_status _ _) eqn:Hretry.
    { apply DefaultStatus_range in Hretry. lia. }
    unfold http_StatusBadRequest.
    destruct (Z.leb_spec 400 (StatusCode response)); [lia|].
    unfold size_check, drained. cbn [pending]. rewrite Hread. reflexivity.
  - exact DefaultStatus_range.
  - intros env request.
    destruct (Do_returns env DefaultClient request ltac:(by_computation))
      as (result & Hdo & Hbound).
    exists result. split; [exact Hdo|].
    change (Z.max 0 (RetryCount DefaultClient + 1)) with 21 in Hbound. lia.
  - reflexivity.
Qed.

Lemma DefaultClient_policy_witness :
  resp_err (prepareResponseBody DefaultClient (response_with_status 200)
              (NopCloser_NewReader xyz)) = None.
Proof.
  exact (proj1 DefaultClient_policy (response_with_status 200) xyz 0%nat
           ltac:(by_computation) ltac:(by_computation)).
Defined.

(** ** Retry-After values that are not used *)

Lemma applyRetryDelay_falls_back env client c response attempt w :
  parseRetryDelay env response <= 0 ->
  sleeps (applyRetryDelay env client c response attempt w).2
  = (sleeps w ++ [ExponentialBackoffWithContext c (RetryDelay client)
                    (math_Max (RetryMultiplier client) float_one)
                    (RetryJitter client) attempt])%list.
Proof.
  intros H. rewrite applyRetryDelay_sleeps. cbn [snd sleeps].
  destruct (Z.ltb_spec 0 (parseRetryDelay env response)); [lia|reflexivity].
Qed.

(** X14. A Retry-After header that does not ask for a wait in the future is
    not used, and the exponential backoff applies: an integer of seconds
    between -9223372036 and 0, a date that is not after the present instant,
    and also an integer of seconds between 9223372037 and 18446744073, so
    large that the number of nanoseconds leaves the range of [time.Duration]
    and wraps around to a negative value. The lower bound matters: for the
    integer -9223372037 the nanoseconds wrap around to the positive value
    9223372036709551616, and that wait is requested with
    [RandomJitterWithContext]. *)
Theorem unusable_retry_after_falls_back :
  forall env client c response h attempt w,
    Header response = Some h ->
    let v := Header_Get h "Retry-After" in
    let requested := sleeps (applyRetryDelay env client c (Some response) attempt w).2 in
    let backoff :=
      requested
      = (sleeps w ++ [ExponentialBackoffWithContext c (RetryDelay client)
                        (math_Max (RetryMultiplier client) float_one)
                        (RetryJitter client) attempt])%list in
    (forall n, strconv_ParseInt v = Some n -> -9223372036 <= n <= 0 -> backoff)
    /\ (forall n, strconv_ParseInt v = Some n ->
          9223372037 <= n <= 18446744073 -> backoff)
    /\ (forall date, strconv_ParseInt v = None ->
          time_Parse_RFC1123 env v = Some date -> date <= time_Now env -> backoff)
    /\ (strconv_ParseInt v = Some (-9223372037) ->
        requested
        = (sleeps w ++ [RandomJitterWithContext c 9223372036709551616 float_zero])%list).
Proof.
  intros env client c response h attempt w Hh v requested backoff.
  subst backoff requested.
  assert (Hd : parseRetryDelay env (Some response)
               = if String.eqb v EmptyString then 0
                 else match strconv_ParseInt v with
                      | Some duration => wrap64 (duration * time_Second)
                      | None => match time_Parse_RFC1123 env v with
                                | Some date => time_Until env date
                                | None => 0
                                end
                      end).
  { subst v. unfold parseRetryDelay. now rewrite Hh. }
  split; [|split; [|split]].
  - intros n Hp Hn. apply applyRetryDelay_falls_back. rewrite Hd, Hp.
    destruct (String.eqb v EmptyString); [lia|].
    rewrite wrap64_id; unfold min_int64, max_int64, time_Second; lia.
  - intros n Hp Hn. apply applyRetryDelay_falls_back. rewrite Hd, Hp.
    destruct (String.eqb v EmptyString); [lia|].
    unfold wrap64, time_Second.
    replace (n * 1000000000 + 2 ^ 63)
      with ((n * 1000000000 - 2 ^ 63) + 1 * 2 ^ 64) by lia.
    rewrite Z.mod_add by lia. rewrite Z.mod_small by lia. lia.
  - intros date Hp Ht Hpast. apply applyRetryDelay_falls_back. rewrite Hd, Hp, Ht.
    destruct (String.eqb v EmptyString); [lia|].
    unfold time_Until, min_int64, max_int64. lia.
  - intros Hp. rewrite applyRetryDelay_sleeps. cbn [snd sleeps]. rewrite Hd, Hp.
    destruct (String.eqb v EmptyString) eqn:E.
    + apply String.eqb_eq in E. rewrite E in Hp. discriminate Hp.
    + change (wrap64 (-9223372037 * time_Second)) with 9223372036709551616.
      reflexivity.
Qed.

(** The headers [0], [9223372037] and [-9223372037]. *)
Lemma unusable_retry_after_falls_back_witness :
  sleeps (applyRetryDelay quiet_env zero_client Background
            (Some (response_with_retry_after 503 "0")) 0 new_world).2
  = [ExponentialBackoffWithContext Background 0 float_one float_zero 0]
  /\ sleeps (applyRetryDelay quiet_env zero_client Background
               (Some (response_with_retry_after 503 "9223372037")) 0 new_world).2
     = [ExponentialBackoffWithContext Background 0 float_one float_zero 0]
  /\ sleeps (applyRetryDelay quiet_env zero_client Background
               (Some (response_with_retry_after 503 "-9223372037")) 0 new_world).2
     = [RandomJitterWithContext Background 9223372036709551616 float_zero].
Proof.
  split; [|split].
  - exact (proj1 (unusable_retry_after_falls_back quiet_env zero_client Background
                    (response_with_retry_after 503 "0") _ 0 new_world eq_refl)
             0 eq_refl ltac:(by_computation)).
  - exact (proj1 (proj2 (unusable_retry_after_falls_back quiet_env zero_client Background
                           (response_with_retry_after 503 "9223372037") _ 0 new_world
                           eq_refl))
             9223372037 eq_refl ltac:(by_computation)).
  - exact (proj2 (proj2 (proj2 (unusable_retry_after_falls_back quiet_env zero_client
                                  Background
                                  (response_with_retry_after 503 "-9223372037") _ 0
                                  new_world eq_refl)))
             eq_refl).
Defined.

(** ** The number of sleeps *)

(** X15. A call of [Do] sleeps at most [2 * RetryCount + 1] times (once
    when [RetryCount] is zero): one request delay before each exchange and
    one retry delay between two exchanges, none after the last attempt. When
    the attempts are exhausted it has slept exactly that many times. *)
Theorem Do_sleeps_bounded :
  forall fuel env client request result,
    0 <= RetryCount client < max_int64 ->
    Do fuel env client (Some request) = Some result ->
    Z.of_nat (length (sleeps (do_world result))) <= 2 * RetryCount client + 1
    /\ (errors_Is (do_err result) ErrRetryable = true ->
        Z.of_nat (length (sleeps (do_world result))) = 2 * RetryCount client + 1).
Proof.
  intros fuel env client request result [Hpos Hmax]. revert fuel result.
  apply (Do_rule env client request
           (fun _ attempt _ _ w =>
              0 <= attempt <= RetryCount client + 1
              /\ Z.of_nat (length (sleeps w)) = 2 * attempt
                                               - (if attempt <=? RetryCount client
                                                  then 0 else 1))
           (fun result =>
              Z.of_nat (length (sleeps (do_world result))) <= 2 * RetryCount client + 1
              /\ (errors_Is (do_err result) ErrRetryable = true ->
                  Z.of_nat (length (sleeps (do_world result)))
                  = 2 * RetryCount client + 1))).
  - intros e after He. split; [cbn; lia|].
    cbn. rewrite (prepareRequestBody_error_fatal _ _ _ He). discriminate.
  - intros req _ _. split; [lia|].
    destruct (Z.leb_spec 0 (RetryCount client)); [reflexivity|lia].
  - intros req _ rq attempt response err w result0 [Hatt Hlen] Hend.
    inversion Hend; subst; cbn [do_world do_err log_sleep sleeps].
    + destruct (Z.leb_spec attempt (RetryCount client)); [lia|]. split; [lia|]. intros _. lia.
    + destruct (Z.leb_spec attempt (RetryCount client)); [|lia].
      rewrite length_app. cbn [length]. split; [lia|discriminate].
    + apply after_reset in H1 as (_ & Hl2 & _ & _ & _ & Hfatal).
      destruct (Z.leb_spec attempt (RetryCount client)); [|lia].
      rewrite Hl2. cbn [log_sleep sleeps]. rewrite length_app. cbn [length].
      split; [lia|]. intros Habs. rewrite Hfatal in Habs. discriminate.
    + apply after_reset in H1 as (_ & Hl2 & _). apply after_send in H2 as (_ & Hl3 & _).
      destruct (Z.leb_spec attempt (RetryCount client)); [|lia].
      rewrite Hl3, Hl2. cbn [log_sleep sleeps]. rewrite length_app. cbn [length].
      split; [lia|]. congruence.
    + apply after_reset in H1 as (_ & Hl2 & _). apply after_send in H2 as (_ & Hl3 & _).
      destruct (Z.leb_spec attempt (RetryCount client)); [|lia].
      rewrite length_app, Hl3, Hl2. cbn [log_sleep sleeps]. rewrite length_app.
      cbn [length]. split; [lia|discriminate].
  - intros req _ rq attempt response err w request2 response3 err' w' [Hatt Hlen] Hgo.
    inversion Hgo; subst.
    + apply after_reset in H1 as (_ & Hl2 & _). apply after_send in H2 as (_ & Hl3 & _).
      rewrite wrap64_id by (unfold min_int64, max_int64 in *; lia).
      destruct (Z.leb_spec attempt (RetryCount client)); [|lia].
      destruct (Z.leb_spec (attempt + 1) (RetryCount client)); [|lia].
      split; [lia|]. cbn [log_sleep sleeps]. rewrite length_app, Hl3, Hl2.
      cbn [log_sleep sleeps]. rewrite length_app. cbn [length]. lia.
    + apply after_reset in H1 as (_ & Hl2 & _). apply after_send in H2 as (_ & Hl3 & _).
      rewrite wrap64_id by (unfold min_int64, max_int64 in *; lia).
      destruct (Z.leb_spec (RetryCount client) (RetryCount client)); [|lia].
      destruct (Z.leb_spec (RetryCount client + 1) (RetryCount client)); [lia|].
      split; [lia|]. rewrite Hl3, Hl2.
      cbn [log_sleep sleeps]. rewrite length_app. cbn [length]. lia.
Qed.

Lemma Do_sleeps_bounded_witness :
  exists result,
    Do 3 always_200_env (with_RetryCount (with_RetryStatus zero_client [200]) 1)
      (Some empty_request) = Some result
    /\ Z.of_nat (length (sleeps (do_world result))) = 3.
Proof.
  destruct (Do 3 always_200_env (with_RetryCount (with_RetryStatus zero_client [200]) 1)
              (Some empty_request)) as [result|] eqn:Hdo;
    [|vm_compute in Hdo; discriminate Hdo].
  exists result. split; [reflexivity|].
  refine (proj2 (Do_sleeps_bounded 3 always_200_env _ empty_request result _ Hdo) _).
  - by_computation.
  - pose proof Hdo as Hc. vm_compute in Hc. injection Hc as <-. reflexivity.
Defined.
